(** * SI_app.py: the solar-cell sweep panel for the Keithley 2401

    A shallow embedding of [SI_app.py].  The module globals, the state of the
    widgets, the instrument session and the files written are one explicit
    [state]; every event handler is a computation in a small state and
    exception monad, written statement by statement after the source.

    Python's [float] is IEEE binary64: it is Rocq's primitive [float].
    [float(str)], [str.split] and the [%] formats [%0.Nf], [%0.Ng], [%d],
    [%s] are modelled on ASCII text, the text a VISA session delivers. *)

From Stdlib Require Import ZArith Bool List Ascii String Lia.
From Stdlib Require Import Decimal DecimalString.
From Stdlib Require Import Floats.
Import ListNotations.

Set Warnings "-inexact-float".

Local Open Scope string_scope.
Local Open Scope Z_scope.

(** ** Text *)

Module Text.

Definition LF : ascii := ascii_of_nat 10.
Definition TAB : ascii := ascii_of_nat 9.
Definition comma : ascii := ascii_of_nat 44.

Definition is_digit (c : ascii) : bool :=
  (48 <=? N_of_ascii c)%N && (N_of_ascii c <=? 57)%N.

Definition digit_val (c : ascii) : Z := Z.of_N (N_of_ascii c) - 48.

(** [Py_ISSPACE]: the six ASCII white-space characters. *)
Definition is_space (c : ascii) : bool :=
  let n := N_of_ascii c in
  ((9 <=? n)%N && (n <=? 13)%N) || (n =? 32)%N.

(** ASCII lower-casing, for the case-insensitive [inf] and [nan]. *)
Definition lower (c : ascii) : ascii :=
  let n := N_of_ascii c in
  if ((65 <=? n)%N && (n <=? 90)%N)%bool then ascii_of_N (n + 32) else c.

Fixpoint lower_str (s : string) : string :=
  match s with
  | EmptyString => EmptyString
  | String c r => String (lower c) (lower_str r)
  end.

Fixpoint rev_onto (s acc : string) : string :=
  match s with
  | EmptyString => acc
  | String c r => rev_onto r (String c acc)
  end.

Definition rev (s : string) : string := rev_onto s EmptyString.

Fixpoint lstrip (s : string) : string :=
  match s with
  | String c r => if is_space c then lstrip r else s
  | EmptyString => EmptyString
  end.

Definition rstrip (s : string) : string := rev (lstrip (rev s)).

Fixpoint repeat_char (c : ascii) (n : nat) : string :=
  match n with
  | O => EmptyString
  | S k => String c (repeat_char c k)
  end.

Fixpoint has_char (c : ascii) (s : string) : bool :=
  match s with
  | EmptyString => false
  | String d r => Ascii.eqb c d || has_char c r
  end.

(** [s.split(c)] with a one-character separator: every occurrence of [c]
    ends a field, so the result always has one field more than [s] has
    separators ([''.split(',')] is [['']]). *)
Fixpoint split (c : ascii) (s : string) : list string :=
  match s with
  | EmptyString => [EmptyString]
  | String d r =>
      if Ascii.eqb d c then EmptyString :: split c r
      else match split c r with
           | f :: fs => String d f :: fs
           | [] => [String d EmptyString]
           end
  end.

(** [sep.join(fields)]. *)
Definition join (c : ascii) (fields : list string) : string :=
  String.concat (String c EmptyString) fields.

(** The lines of a text written with LF line ends: each LF closes a line;
    characters after the last LF form a last, unterminated line. *)
Fixpoint lines (s : string) : list string :=
  match s with
  | EmptyString => []
  | String d r =>
      if Ascii.eqb d LF then EmptyString :: lines r
      else match lines r with
           | f :: fs => String d f :: fs
           | [] => [String d EmptyString]
           end
  end.

(** Every character of [s] satisfies [p]. *)
Fixpoint all_chars (p : ascii -> bool) (s : string) : bool :=
  match s with
  | EmptyString => true
  | String c r => p c && all_chars p r
  end.

(** The characters a formatted number is made of: digits, the point, the
    signs, [e], and the letters of [inf] and [nan]. *)
Definition numeric_char (c : ascii) : bool :=
  is_digit c || has_char c ".-+einfa".

End Text.

(** ** Python's float: parsing and formatting *)

Module PyFloat.
Import Text.

(** *** [float(str)]

    After CPython's [PyFloat_FromString] on an ASCII string: underscores
    between digits are removed, white space is stripped at both ends, and
    the rest must be, as a whole, a decimal numeral or one of [inf],
    [infinity], [nan] (any case, optional sign).  The numeral is rounded
    to the nearest binary64 value, ties to even. *)

Definition MAX_DIGITS : Z := 1000000000.
Definition MAX_ABS_EXP : Z := 1100000000.

Definition NUL : ascii := ascii_of_nat 0.
Definition is_underscore (c : ascii) : bool := Ascii.eqb c "_"%char.

(** [_Py_string_to_number_with_underscores]: an underscore needs a digit on
    each side. *)
Fixpoint remove_underscores (prev : ascii) (s : string) : option string :=
  match s with
  | EmptyString => if is_underscore prev then None else Some EmptyString
  | String c r =>
      if is_underscore c then
        if is_digit prev then remove_underscores c r else None
      else if is_underscore prev && negb (is_digit c) then None
      else option_map (String c) (remove_underscores c r)
  end.

Definition strip_sign (s : string) : bool * string :=
  match s with
  | String c r =>
      if Ascii.eqb c "-"%char then (true, r)
      else if Ascii.eqb c "+"%char then (false, r)
      else (false, s)
  | EmptyString => (false, s)
  end.

Fixpoint span_digits (s : string) : string * string :=
  match s with
  | String c r =>
      if is_digit c then let (d, t) := span_digits r in (String c d, t)
      else (EmptyString, s)
  | EmptyString => (EmptyString, EmptyString)
  end.

Fixpoint drop_zeros (s : string) : string :=
  match s with
  | String c r => if Ascii.eqb c "0"%char then drop_zeros r else s
  | EmptyString => EmptyString
  end.

Fixpoint digits_value (acc : Z) (s : string) : Z :=
  match s with
  | EmptyString => acc
  | String c r => digits_value (10 * acc + digit_val c) r
  end.

Definition slen (s : string) : Z := Z.of_nat (String.length s).

(** Number of decimal digits of a positive integer. *)
Definition ndigits10 (m : positive) : Z :=
  Z.of_nat (Decimal.nb_digits (Pos.to_uint m)).

(** The binary64 value nearest to [m * 10^e10] (ties to even), with sign
    [neg].  A numeral with [k] digits lies in [[10^(k+e10-1), 10^(k+e10))]:
    from [10^310] on it overflows to an infinity and below [10^-325] it
    rounds to zero, without forming the power of ten. *)
Definition round_decimal (neg : bool) (m : Z) (e10 : Z) : spec_float :=
  match m with
  | Zpos p =>
      let top := ndigits10 p + e10 in
      if 310 <? top then S754_infinity neg
      else if top <? -324 then S754_zero neg
      else if 0 <=? e10 then
        binary_normalize prec emax ((if neg then -1 else 1) * (m * 10 ^ e10)) 0 neg
      else
        match 10 ^ (- e10) with
        | Zpos d => SFdiv prec emax (S754_finite neg p 0) (S754_finite false d 0)
        | _ => S754_nan
        end
  | _ => S754_zero neg
  end.

(** The exponent part: [e] or [E], an optional sign and at least one digit;
    when no digit follows, nothing is consumed. *)
Definition parse_exponent (s : string) : Z * string :=
  match s with
  | String c r =>
      if Ascii.eqb (lower c) "e"%char then
        let (eneg, r1) := strip_sign r in
        let (ed, r2) := span_digits r1 in
        match ed with
        | EmptyString => (0, s)
        | _ =>
            let sig := drop_zeros ed in
            let a := digits_value 0 sig in
            let e := if (9 <? slen sig) || (MAX_ABS_EXP <? a)
                     then MAX_ABS_EXP else a in
            (if eneg then - e else e, r2)
        end
      else (0, s)
  | EmptyString => (0, s)
  end.

(** [_Py_dg_strtod]: the value of the longest numeral at the start of [s]
    and the text left over; [None] when [s] does not start with a numeral. *)
Definition strtod (s : string) : option (spec_float * string) :=
  let (neg, s1) := strip_sign s in
  let (ip, s2) := span_digits s1 in
  let '(fp, s3) :=
    match s2 with
    | String c r => if Ascii.eqb c "."%char then span_digits r
                    else (EmptyString, s2)
    | EmptyString => (EmptyString, s2)
    end in
  let all := (ip ++ fp)%string in
  match all with
  | EmptyString => None
  | _ =>
      if (MAX_DIGITS <? slen (drop_zeros all)) || (MAX_DIGITS <? slen fp)
      then None
      else
        let (e, s4) := parse_exponent s3 in
        Some (round_decimal neg (digits_value 0 all) (e - slen fp), s4)
  end.

Definition strip_prefix_ci (p s : string) : option string :=
  let n := String.length p in
  if String.eqb (lower_str (substring 0 n s)) p
  then Some (substring n (String.length s - n) s) else None.

(** [_Py_parse_inf_or_nan]. *)
Definition parse_inf_or_nan (s : string) : option (spec_float * string) :=
  let (neg, s1) := strip_sign s in
  match strip_prefix_ci "inf" s1 with
  | Some r =>
      match strip_prefix_ci "inity" r with
      | Some r' => Some (S754_infinity neg, r')
      | None => Some (S754_infinity neg, r)
      end
  | None =>
      match strip_prefix_ci "nan" s1 with
      | Some r => Some (S754_nan, r)
      | None => None
      end
  end.

(** [float(s)]; [None] stands for [ValueError]. *)
Definition float_of_str (s : string) : option float :=
  match remove_underscores NUL s with
  | None => None
  | Some t =>
      let u := rstrip (lstrip t) in
      match strtod u with
      | Some (x, EmptyString) => Some (SF2Prim x)
      | Some (_, String _ _) => None
      | None =>
          match parse_inf_or_nan u with
          | Some (x, EmptyString) => Some (SF2Prim x)
          | _ => None
          end
      end
  end.

(** *** The [%] formats

    A finite binary64 value is [m * 2^e] exactly; CPython prints the
    decimal numeral nearest to that exact value (ties to even). *)

(** [num / den] rounded to the nearest integer, ties to even ([0 < den]). *)
Definition div_half_even (num den : Z) : Z :=
  let q := num / den in
  match (2 * (num mod den) ?= den) with
  | Lt => q
  | Gt => q + 1
  | Eq => if Z.even q then q else q + 1
  end.

(** [m * 2^e * 10^p] rounded to the nearest integer, ties to even. *)
Definition scaled (m : positive) (e p : Z) : Z :=
  let num := Zpos m * (if 0 <=? e then 2 ^ e else 1)
                    * (if 0 <=? p then 10 ^ p else 1) in
  let den := (if 0 <=? e then 1 else 2 ^ (- e))
             * (if 0 <=? p then 1 else 10 ^ (- p)) in
  div_half_even num den.

(** Decimal numeral of a natural number, ["0"] for zero. *)
Definition dec (n : Z) : string :=
  NilZero.string_of_uint (N.to_uint (Z.to_N n)).

Definition zeros (n : nat) : string := repeat_char "0"%char n.

(** [n] written with at least [w] digits. *)
Definition dec_pad (w : nat) (n : Z) : string :=
  let d := dec n in (zeros (w - String.length d) ++ d)%string.

Definition sign_str (neg : bool) : string := if neg then "-" else "".

(** The scaled integer [r] with the point [p] digits from the right. *)
Definition fixed_digits (r : Z) (p : nat) : string :=
  let u := 10 ^ Z.of_nat p in
  match p with
  | O => dec r
  | S _ => (dec (r / u) ++ "." ++ dec_pad p (r mod u))%string
  end.

(** ["%0.<p>f" % x]: the [0] flag has no effect without a width. *)
Definition fmt_f (p : nat) (x : float) : string :=
  match Prim2SF x with
  | S754_nan => "nan"
  | S754_infinity s => (sign_str s ++ "inf")%string
  | S754_zero s => (sign_str s ++ fixed_digits 0 p)%string
  | S754_finite s m e => (sign_str s ++ fixed_digits (scaled m e (Z.of_nat p)) p)%string
  end.

(** The least [j] from [j0] on with [den <= num * 10^(j - j0)]. *)
Fixpoint scale_up (fuel : nat) (num den j : Z) : Z :=
  match fuel with
  | O => j
  | S f => if den <=? num then j else scale_up f (10 * num) den (j + 1)
  end.

(** The decimal exponent of [m * 2^e]: the [x] with
    [10^x <= m * 2^e < 10^(x+1)]. *)
Definition dec_exp (m : positive) (e : Z) : Z :=
  if 0 <=? e then slen (dec (Zpos m * 2 ^ e)) - 1
  else
    let den := 2 ^ (- e) in
    if den <=? Zpos m then slen (dec (Zpos m / den)) - 1
    else - scale_up (Z.to_nat (- e)) (10 * Zpos m) den 1.

Definition strip_zeros_right (s : string) : string :=
  rev (drop_zeros (rev s)).

(** A fraction after the point, or nothing when no digit is left. *)
Definition point_frac (frac : string) : string :=
  match frac with
  | EmptyString => ""
  | _ => String "."%char frac
  end.

(** The exponent as C prints it: a sign and at least two digits. *)
Definition exp_str (x : Z) : string :=
  ((if (x <? 0)%Z then "-" else "+") ++ dec_pad 2 (Z.abs x))%string.

(** ["%0.<p>g" % x]: [p] significant digits ([1] when [p] is [0]), in
    exponent style when the decimal exponent is below [-4] or at least [p],
    trailing zeros removed. *)
Definition fmt_g (p0 : nat) (x : float) : string :=
  let p := match p0 with O => 1%nat | _ => p0 end in
  match Prim2SF x with
  | S754_nan => "nan"
  | S754_infinity s => (sign_str s ++ "inf")%string
  | S754_zero s => (sign_str s ++ "0")%string
  | S754_finite s m e =>
      let x0 := dec_exp m e in
      let d0 := scaled m e (Z.of_nat p - 1 - x0) in
      let '(d, x) := if d0 =? 10 ^ Z.of_nat p
                     then (10 ^ (Z.of_nat p - 1), x0 + 1) else (d0, x0) in
      let ds := dec d in
      let body :=
        if (x <? -4) || (Z.of_nat p <=? x) then
          (substring 0 1 ds
           ++ point_frac (strip_zeros_right (substring 1 (p - 1) ds))
           ++ "e" ++ exp_str x)%string
        else if 0 <=? x then
          let k := S (Z.to_nat x) in
          (substring 0 k ds
           ++ point_frac (strip_zeros_right (substring k (p - k) ds)))%string
        else
          ("0." ++ zeros (Z.to_nat (- x - 1)) ++ strip_zeros_right ds)%string in
      (sign_str s ++ body)%string
  end.

(** ["%d" % n] for an [int]. *)
Definition fmt_d (n : Z) : string :=
  (sign_str (n <? 0)%Z ++ dec (Z.abs n))%string.

End PyFloat.

(** ** The program state *)

Module App.
Import Text PyFloat.

(** The exceptions the handlers can raise. *)
Inductive exn : Set :=
| AttributeError      (* [SM.write] while [SM] is [None] *)
| IndexError          (* an index past the end of a list or array *)
| ValueError          (* [float] of a text that is no number *)
| FileNotFoundError.  (* [open] of the empty file name *)

(** An open VISA session. *)
Record session : Set := { resource_name : string; timeout : Z }.

(** The module's global variables, lines 22-24, 76-88 and 246-247. *)
Record globals : Set := {
  N : Z;
  minV : float;
  maxV : float;
  SM : option session;
  meterSelected : bool;
  Imax : float;
  Imax_index : Z;
  IVmax : float;
  IVmax_index : Z;
  zero_index : Z;
  Vmax : float;
  fillFactor : float;
  efficiency : float;
  area : float;
  flux : float;
  current : list float;
  voltage : list float
}.

Definition MaxN : Z := 1000.

(** The widgets the handlers touch. *)
Inductive widget : Set :=
| selectMenu | portMenu
| startVentry | stopVentry | areaEntry | fluxEntry
| startButton | stopButton | saveButton
| ffOutput | efOutput.

Definition widget_eqb (a b : widget) : bool :=
  match a, b with
  | selectMenu, selectMenu | portMenu, portMenu
  | startVentry, startVentry | stopVentry, stopVentry
  | areaEntry, areaEntry | fluxEntry, fluxEntry
  | startButton, startButton | stopButton, stopButton
  | saveButton, saveButton
  | ffOutput, ffOutput | efOutput, efOutput => true
  | _, _ => false
  end.

Record ui : Type := {
  disabled : widget -> bool;
  text : widget -> string
}.

(** The matplotlib axes: the plotted series and the two labels. *)
Record plot : Set := {
  series : list (list float * list float * string);
  xlabel : string;
  ylabel : string
}.

Definition empty_plot : plot := {| series := []; xlabel := ""; ylabel := "" |}.

(** What a handler does to the world outside the interpreter, in program
    order: calls on widgets, on the instrument session, on the plot and on
    files. *)
Inductive effect : Set :=
| SetDisabled (w : widget) (b : bool)
| SetText (w : widget) (s : string)
| OpenResource (name : string)
| VisaWrite (cmd : string)
| VisaQuery (cmd reply : string)
| AxesCla
| AxesPlot (xs ys : list float) (style : string)
| AxesXLabel (s : string)
| AxesYLabel (s : string)
| CanvasDraw
| SaveDialog (chosen : string)
| FileOpen (name : string)
| FileWrite (name data : string)
| FileClose (name : string).

(** Files as an association list, the newest binding of a name first. *)
Definition filesystem : Set := list (string * string).

Fixpoint file_content (name : string) (fs : filesystem) : option string :=
  match fs with
  | [] => None
  | (n, c) :: r => if String.eqb n name then Some c else file_content name r
  end.

Fixpoint file_append (name data : string) (fs : filesystem) : filesystem :=
  match fs with
  | [] => []
  | (n, c) :: r =>
      if String.eqb n name then (n, (c ++ data)%string) :: r
      else (n, c) :: file_append name data r
  end.

Record world : Type := {
  gui : ui;
  axes : plot;
  canvas : plot;            (* what the last [draw] put on the screen *)
  files : filesystem;
  trace : list effect       (* every effect so far, oldest first *)
}.

Definition ui_apply (e : effect) (u : ui) : ui :=
  match e with
  | SetDisabled w b =>
      {| disabled := fun w' => if widget_eqb w' w then b else disabled u w';
         text := text u |}
  | SetText w s =>
      {| disabled := disabled u;
         text := fun w' => if widget_eqb w' w then s else text u w' |}
  | _ => u
  end.

Definition plot_apply (e : effect) (p : plot) : plot :=
  match e with
  | AxesCla => empty_plot
  | AxesPlot xs ys style =>
      {| series := series p ++ [(xs, ys, style)];
         xlabel := xlabel p; ylabel := ylabel p |}
  | AxesXLabel s => {| series := series p; xlabel := s; ylabel := ylabel p |}
  | AxesYLabel s => {| series := series p; xlabel := xlabel p; ylabel := s |}
  | _ => p
  end.

Definition files_apply (e : effect) (fs : filesystem) : filesystem :=
  match e with
  | FileOpen name => (name, "") :: fs        (* mode 'w' truncates *)
  | FileWrite name data => file_append name data fs
  | _ => fs
  end.

Definition world_apply (e : effect) (w : world) : world :=
  {| gui := ui_apply e (gui w);
     axes := plot_apply e (axes w);
     canvas := match e with CanvasDraw => axes w | _ => canvas w end;
     files := files_apply e (files w);
     trace := trace w ++ [e] |}.

Record state : Type := { vars : globals; env : world }.

(** Assignments to the globals the program assigns. *)
Definition set_SM (x : option session) (g : globals) : globals :=
  {| N := N g; minV := minV g; maxV := maxV g; SM := x;
     meterSelected := meterSelected g; Imax := Imax g;
     Imax_index := Imax_index g; IVmax := IVmax g;
     IVmax_index := IVmax_index g; zero_index := zero_index g;
     Vmax := Vmax g; fillFactor := fillFactor g; efficiency := efficiency g;
     area := area g; flux := flux g; current := current g;
     voltage := voltage g |}.

Definition set_minV (x : float) (g : globals) : globals :=
  {| N := N g; minV := x; maxV := maxV g; SM := SM g;
     meterSelected := meterSelected g; Imax := Imax g;
     Imax_index := Imax_index g; IVmax := IVmax g;
     IVmax_index := IVmax_index g; zero_index := zero_index g;
     Vmax := Vmax g; fillFactor := fillFactor g; efficiency := efficiency g;
     area := area g; flux := flux g; current := current g;
     voltage := voltage g |}.

Definition set_maxV (x : float) (g : globals) : globals :=
  {| N := N g; minV := minV g; maxV := x; SM := SM g;
     meterSelected := meterSelected g; Imax := Imax g;
     Imax_index := Imax_index g; IVmax := IVmax g;
     IVmax_index := IVmax_index g; zero_index := zero_index g;
     Vmax := Vmax g; fillFactor := fillFactor g; efficiency := efficiency g;
     area := area g; flux := flux g; current := current g;
     voltage := voltage g |}.

Definition set_area (x : float) (g : globals) : globals :=
  {| N := N g; minV := minV g; maxV := maxV g; SM := SM g;
     meterSelected := meterSelected g; Imax := Imax g;
     Imax_index := Imax_index g; IVmax := IVmax g;
     IVmax_index := IVmax_index g; zero_index := zero_index g;
     Vmax := Vmax g; fillFactor := fillFactor g; efficiency := efficiency g;
     area := x; flux := flux g; current := current g;
     voltage := voltage g |}.

Definition set_flux (x : float) (g : globals) : globals :=
  {| N := N g; minV := minV g; maxV := maxV g; SM := SM g;
     meterSelected := meterSelected g; Imax := Imax g;
     Imax_index := Imax_index g; IVmax := IVmax g;
     IVmax_index := IVmax_index g; zero_index := zero_index g;
     Vmax := Vmax g; fillFactor := fillFactor g; efficiency := efficiency g;
     area := area g; flux := x; current := current g;
     voltage := voltage g |}.

Definition set_current (x : list float) (g : globals) : globals :=
  {| N := N g; minV := minV g; maxV := maxV g; SM := SM g;
     meterSelected := meterSelected g; Imax := Imax g;
     Imax_index := Imax_index g; IVmax := IVmax g;
     IVmax_index := IVmax_index g; zero_index := zero_index g;
     Vmax := Vmax g; fillFactor := fillFactor g; efficiency := efficiency g;
     area := area g; flux := flux g; current := x;
     voltage := voltage g |}.

Definition set_voltage (x : list float) (g : globals) : globals :=
  {| N := N g; minV := minV g; maxV := maxV g; SM := SM g;
     meterSelected := meterSelected g; Imax := Imax g;
     Imax_index := Imax_index g; IVmax := IVmax g;
     IVmax_index := IVmax_index g; zero_index := zero_index g;
     Vmax := Vmax g; fillFactor := fillFactor g; efficiency := efficiency g;
     area := area g; flux := flux g; current := current g;
     voltage := x |}.

(** *** The handler monad: state, and exceptions that keep the state

    A Python exception leaves every assignment made before it in place, so
    a raised result carries the state at the point of the raise. *)

Inductive result (A : Type) : Type :=
| Done (a : A) (st : state)
| Raised (e : exn) (st : state).
Arguments Done {A} a st.
Arguments Raised {A} e st.

Definition M (A : Type) : Type := state -> result A.

Definition ret {A} (a : A) : M A := fun st => Done a st.

Definition bind {A B} (c : M A) (k : A -> M B) : M B :=
  fun st => match c st with
            | Done a st' => k a st'
            | Raised e st' => Raised e st'
            end.

Definition raise {A} (e : exn) : M A := fun st => Raised e st.

Declare Scope py_scope.
Delimit Scope py_scope with py.
Notation "x <- c ;; k" := (bind c (fun x => k))
  (at level 61, c at next level, right associativity) : py_scope.
Notation "c ;; k" := (bind c (fun _ => k))
  (at level 61, right associativity) : py_scope.
Local Open Scope py_scope.

(** The state a computation ends in, returned or raised. *)
Definition final {A} (r : result A) : state :=
  match r with Done _ st => st | Raised _ st => st end.

Definition raised {A} (r : result A) : option exn :=
  match r with Done _ _ => None | Raised e _ => Some e end.

Definition read {A} (f : globals -> A) : M A := fun st => Done (f (vars st)) st.

Definition assign (f : globals -> globals) : M unit :=
  fun st => Done tt {| vars := f (vars st); env := env st |}.

Definition perform (e : effect) : M unit :=
  fun st => Done tt {| vars := vars st; env := world_apply e (env st) |}.

(** A value or an exception, for expressions. *)
Definition lift {A} (x : exn + A) : M A :=
  match x with inl e => raise e | inr a => ret a end.

(** *** Python built-ins *)

(** [range(start, stop, step)] for a positive [step]. *)
Definition range (start stop step : Z) : list Z :=
  map (fun k => start + step * Z.of_nat k)
      (seq 0 (Z.to_nat ((stop - start + step - 1) / step))).

(** [l[j]], negative [j] counting from the end. *)
Definition getitem {A} (l : list A) (j : Z) : exn + A :=
  let n := Z.of_nat (List.length l) in
  let k := if j <? 0 then j + n else j in
  if (k <? 0) || (n <=? k) then inl IndexError
  else match nth_error l (Z.to_nat k) with
       | Some a => inr a
       | None => inl IndexError
       end.

(** [float(s)] on a [str]. *)
Definition py_float (s : string) : exn + float :=
  match float_of_str s with
  | Some x => inr x
  | None => inl ValueError
  end.

(** [[f(j) for j in js]]: the elements in order, up to the first
    exception. *)
Fixpoint comprehension {A} (f : Z -> exn + A) (js : list Z) : exn + list A :=
  match js with
  | [] => inr []
  | j :: r =>
      match f j with
      | inl e => inl e
      | inr a =>
          match comprehension f r with
          | inl e => inl e
          | inr l => inr (a :: l)
          end
      end
  end.

(** [for j in js: body(j)]. *)
Fixpoint for_each (js : list Z) (body : Z -> M unit) : M unit :=
  match js with
  | [] => ret tt
  | j :: r => body j ;; for_each r body
  end.

(** [SM.write(cmd)]: [None] has no attribute [write]. *)
Definition SM_write (cmd : string) : M unit :=
  sm <- read SM ;;
  match sm with
  | None => raise AttributeError
  | Some _ => perform (VisaWrite cmd)
  end.

(** [SM.query(cmd)]; [reply] is what the instrument answers. *)
Definition SM_query (cmd reply : string) : M string :=
  sm <- read SM ;;
  match sm with
  | None => raise AttributeError
  | Some _ => perform (VisaQuery cmd reply) ;; ret reply
  end.

(** [open(name, 'w')]: the empty name, what a cancelled dialog returns,
    cannot be opened. *)
Definition open_w (name : string) : M string :=
  match name with
  | EmptyString => raise FileNotFoundError
  | _ => perform (FileOpen name) ;; ret name
  end.

Definition nl : string := String LF EmptyString.
Definition tab : string := String TAB EmptyString.

(** ** The handlers *)

(** [float(data[j])]. *)
Definition field (data : list string) (j : Z) : exn + float :=
  match getitem data j with
  | inl e => inl e
  | inr t => py_float t
  end.

(** [current*1000] on a numpy array. *)
Definition times_1000 (a : list float) : list float :=
  map (fun x => PrimFloat.mul x 1000%float) a.

(** Lines 186-224.  The local [zero] is never used. *)
Definition processData (dataString : string) : M unit :=
  let zero := 0.00001%float in
  let data := split comma dataString in
  n <- read N ;;
  v <- lift (comprehension (field data) (range 0 (2 * n) 2)) ;;
  assign (set_voltage v) ;;
  n <- read N ;;
  c <- lift (comprehension (field data) (range 1 (2 * n) 2)) ;;
  assign (set_current c) ;;
  perform AxesCla ;;
  v <- read voltage ;;
  c <- read current ;;
  perform (AxesPlot v (times_1000 c) "r.") ;;
  perform (AxesXLabel "Voltage (V)") ;;
  perform (AxesYLabel "Current (mA)") ;;
  perform CanvasDraw ;;
  perform (SetDisabled saveButton false).

(** Lines 96-108; [reply] is the instrument's answer to [read?]. *)
Definition start_clicked (reply : string) : M unit :=
  perform (SetDisabled startButton true) ;;
  perform (SetDisabled stopButton false) ;;
  SM_write "output on" ;;
  datastring <- SM_query "read?" reply ;;
  SM_write "output off" ;;
  processData datastring ;;
  perform (SetDisabled startButton false).

(** Lines 110-117. *)
Definition stop_clicked : M unit :=
  perform (SetDisabled stopButton true) ;;
  perform (SetDisabled startButton false) ;;
  SM_write "output off".

(** One pass of the loop of lines 133-134. *)
Definition save_row (file : string) (j : Z) : M unit :=
  vs <- read voltage ;;
  v <- lift (getitem vs j) ;;
  cs <- read current ;;
  c <- lift (getitem cs j) ;;
  perform (FileWrite file (fmt_f 5 v ++ tab ++ fmt_g 5 c ++ nl)).

(** Lines 119-139; [chosen] is the name the file dialog returns. *)
Definition save_clicked (chosen : string) : M unit :=
  perform (SaveDialog chosen) ;;
  file <- open_w chosen ;;
  a <- read area ;;
  perform (FileWrite file ("# Area = " ++ fmt_f 5 a ++ " (units?)" ++ nl)) ;;
  f <- read flux ;;
  perform (FileWrite file ("# Flux = " ++ fmt_f 5 f ++ " (units?)" ++ nl)) ;;
  i <- read Imax ;;
  perform (FileWrite file ("# Max Current = " ++ fmt_f 5 i ++ " mA" ++ nl)) ;;
  v <- read Vmax ;;
  perform (FileWrite file ("# Max Voltage = " ++ fmt_f 5 v ++ " V" ++ nl)) ;;
  ff <- read fillFactor ;;
  perform (FileWrite file ("# Fill Factor = " ++ fmt_f 3 ff ++ " " ++ nl)) ;;
  ef <- read efficiency ;;
  perform (FileWrite file ("# Efficiency = " ++ fmt_f 3 ef ++ nl)) ;;
  perform (FileWrite file ("# Voltage" ++ tab ++ "Current" ++ nl)) ;;
  n <- read N ;;
  for_each (range 0 n 1) (save_row file) ;;
  perform (FileClose file) ;;
  perform (SetText saveButton "Data Saved") ;;
  perform (SetDisabled saveButton true).

(** The timeout of a session just opened, in milliseconds. *)
Definition default_timeout : Z := 2000.

Definition with_timeout (ms : Z) (sm : option session) : option session :=
  match sm with
  | Some s => Some {| resource_name := resource_name s; timeout := ms |}
  | None => None
  end.

(** Lines 141-163; [name] is [selectMenu.currentText()].  [meterSelected]
    is assigned without a [global] declaration: it is a local variable and
    the global of that name keeps its value. *)
Definition selectionChange (name : string) : M unit :=
  perform (OpenResource name) ;;
  assign (set_SM (Some {| resource_name := name; timeout := default_timeout |})) ;;
  sm <- read SM ;;
  assign (set_SM (with_timeout 30000 sm)) ;;
  SM_write "syst:beep 440" ;;
  SM_write "route:term front" ;;
  SM_write "source:function:mode volt" ;;
  lo <- read minV ;;
  SM_write ("source:volt:start " ++ fmt_f 2 lo) ;;
  hi <- read maxV ;;
  SM_write ("source:volt:stop " ++ fmt_f 2 hi) ;;
  SM_write "source:volt:mode sweep" ;;
  SM_write "format:elements voltage, current" ;;
  n <- read N ;;
  SM_write ("source:sweep:points " ++ fmt_d n) ;;
  n <- read N ;;
  SM_write ("trig:count " ++ fmt_d n) ;;
  let meterSelected := true in
  if meterSelected then
    perform (SetDisabled portMenu false) ;;
    perform (SetDisabled startButton false) ;;
    perform (SetDisabled startVentry false) ;;
    perform (SetDisabled stopVentry false) ;;
    perform (SetDisabled fluxEntry false) ;;
    perform (SetDisabled areaEntry false)
  else ret tt.

(** Lines 165-168; [txt] is [areaEntry.text()]. *)
Definition areaSet (txt : string) : M unit :=
  x <- lift (py_float txt) ;;
  assign (set_area x).

(** Lines 170-173. *)
Definition fluxSet (txt : string) : M unit :=
  x <- lift (py_float txt) ;;
  assign (set_flux x).

(** Lines 175-178; [port] is a local variable. *)
Definition portSet (currentText : string) : M unit :=
  let port := currentText in
  SM_write ("route:term " ++ port).

(** Lines 226-229. *)
Definition minVset (txt : string) : M unit :=
  x <- lift (py_float txt) ;;
  assign (set_minV x) ;;
  lo <- read minV ;;
  SM_write ("source:volt:start " ++ fmt_f 2 lo).

(** Lines 231-234. *)
Definition maxVset (txt : string) : M unit :=
  x <- lift (py_float txt) ;;
  assign (set_maxV x) ;;
  hi <- read maxV ;;
  SM_write ("source:volt:stop " ++ fmt_f 2 hi).

(** Lines 236-238. *)
Definition updateOutput : M unit :=
  ff <- read fillFactor ;;
  perform (SetText ffOutput ("Fill Factor: " ++ fmt_f 2 ff ++ "  ")) ;;
  ef <- read efficiency ;;
  perform (SetText efOutput ("Efficiency: " ++ fmt_f 2 ef ++ " ")).

(** ** The main program *)

(** [np.zeros(n)]. *)
Definition np_zeros (n : Z) : list float := repeat 0%float (Z.to_nat n).

(** The globals as the module's top level defines them. *)
Definition globals0 : globals :=
  {| N := 100; minV := 0.0; maxV := 2.0; SM := None; meterSelected := false;
     Imax := 0.0; Imax_index := 0; IVmax := 0.0; IVmax_index := 0;
     zero_index := 0; Vmax := 0.0; fillFactor := 0.0; efficiency := 0.0;
     area := 2.76; flux := 100.0;
     current := np_zeros 100; voltage := np_zeros 100 |}.

(** Widgets as Qt creates them: enabled, without text. *)
Definition fresh : state :=
  {| vars := globals0;
     env := {| gui := {| disabled := fun _ => false; text := fun _ => "" |};
               axes := empty_plot; canvas := empty_plot;
               files := []; trace := [] |} |}.

Definition ports : list string := ["Front"; "Rear"].

(** Lines 249-409, the calls that set what the handlers later read or
    change. *)
Definition main : M unit :=
  perform (SetDisabled portMenu true) ;;
  lo <- read minV ;;
  perform (SetText startVentry (fmt_f 2 lo)) ;;
  perform (SetDisabled startVentry true) ;;
  hi <- read maxV ;;
  perform (SetText stopVentry (fmt_f 2 hi)) ;;
  perform (SetDisabled stopVentry true) ;;
  a <- read area ;;
  perform (SetText areaEntry (fmt_f 5 a)) ;;
  perform (SetDisabled areaEntry true) ;;
  f <- read flux ;;
  perform (SetText fluxEntry (fmt_f 5 f)) ;;
  perform (SetDisabled fluxEntry true) ;;
  perform (SetText startButton "Start") ;;
  perform (SetDisabled startButton true) ;;
  perform (SetText stopButton "Stop") ;;
  perform (SetDisabled stopButton true) ;;
  perform (SetText saveButton "Save Data") ;;
  perform (SetDisabled saveButton true) ;;
  updateOutput.

(** The state in which the event loop starts. *)
Definition initial : state := final (main fresh).

(** What the operator and the instrument can do, with the text the handler
    then reads from the widget, the dialog or the session. *)
Inductive event : Set :=
| SelectionChanged (name : string)
| PortChanged (port : string)
| StartClicked (reply : string)
| StopClicked
| SaveClicked (chosen : string)
| AreaChanged (txt : string)
| FluxChanged (txt : string)
| StartVEdited (txt : string)
| StopVEdited (txt : string).

(** The connections of lines 268-358. *)
Definition handler (e : event) : M unit :=
  match e with
  | SelectionChanged name => selectionChange name
  | PortChanged port => portSet port
  | StartClicked reply => start_clicked reply
  | StopClicked => stop_clicked
  | SaveClicked chosen => save_clicked chosen
  | AreaChanged txt => areaSet txt
  | FluxChanged txt => fluxSet txt
  | StartVEdited txt => minVset txt
  | StopVEdited txt => maxVset txt
  end.

Definition source (e : event) : widget :=
  match e with
  | SelectionChanged _ => selectMenu
  | PortChanged _ => portMenu
  | StartClicked _ => startButton
  | StopClicked => stopButton
  | SaveClicked _ => saveButton
  | AreaChanged _ => areaEntry
  | FluxChanged _ => fluxEntry
  | StartVEdited _ => startVentry
  | StopVEdited _ => stopVentry
  end.

(** A disabled widget takes no input; the port menu offers [ports]. *)
Definition enabled (e : event) (st : state) : bool :=
  negb (disabled (gui (env st)) (source e))
  && match e with
     | PortChanged port => existsb (String.eqb port) ports
     | _ => true
     end.

Definition step (e : event) (st : state) : state := final (handler e st).

Inductive reachable : state -> Prop :=
| reach_initial : reachable initial
| reach_event e st : reachable st -> enabled e st = true -> reachable (step e st).

End App.


(** ** Observations on a run *)

Module Obs.
Import Text PyFloat App.

(** The effects a computation adds to the trace when run from [st]. *)
Definition effects_of {A} (c : M A) (st : state) : list effect :=
  skipn (List.length (trace (env st))) (trace (env (final (c st)))).

(** The commands that go to the instrument, in order. *)
Fixpoint sent (es : list effect) : list string :=
  match es with
  | [] => []
  | VisaWrite cmd :: r => cmd :: sent r
  | VisaQuery cmd _ :: r => cmd :: sent r
  | _ :: r => sent r
  end.

(** The widgets after the effects [es], from the widgets [u]. *)
Definition ui_replay (es : list effect) (u : ui) : ui :=
  fold_left (fun u e => ui_apply e u) es u.

Definition put_voltage (v : list float) (st : state) : state :=
  {| vars := set_voltage v (vars st); env := env st |}.

Definition put_current (c : list float) (st : state) : state :=
  {| vars := set_current c (vars st); env := env st |}.

(** The six effects of the plotting half of [processData]. *)
Definition redraw (v c : list float) : list effect :=
  [ AxesCla; AxesPlot v (times_1000 c) "r.";
    AxesXLabel "Voltage (V)"; AxesYLabel "Current (mA)";
    CanvasDraw; SetDisabled saveButton false ].

Definition after_effects (es : list effect) (st : state) : state :=
  {| vars := vars st;
     env := fold_left (fun w e => world_apply e w) es (env st) |}.

(** A field is good when it exists and is a numeral. *)
Definition good (data : list string) (m : nat) : Prop :=
  (m < List.length data)%nat /\ float_of_str (nth m data "") <> None.

(** The derived metrics, in the order of lines 79-86. *)
Definition metrics (g : globals)
  : float * Z * float * Z * Z * float * float * float :=
  (Imax g, Imax_index g, IVmax g, IVmax_index g, zero_index g,
   Vmax g, fillFactor g, efficiency g).

(** The effects of [start_clicked] up to the call of [processData]. *)
Definition opening (reply : string) : list effect :=
  [ SetDisabled startButton true; SetDisabled stopButton false;
    VisaWrite "output on"; VisaQuery "read?" reply; VisaWrite "output off" ].

(** [v0, c0, v1, c1, ...]. *)
Fixpoint interleave {A} (v c : list A) : list A :=
  match v, c with
  | x :: v', y :: c' => x :: y :: interleave v' c'
  | _, _ => []
  end.

(** *** The saved file *)

(** The seven header lines of lines 125-131, without their line ends. *)
Definition header_lines (g : globals) : list string :=
  [ "# Area = " ++ fmt_f 5 (area g) ++ " (units?)";
    "# Flux = " ++ fmt_f 5 (flux g) ++ " (units?)";
    "# Max Current = " ++ fmt_f 5 (Imax g) ++ " mA";
    "# Max Voltage = " ++ fmt_f 5 (Vmax g) ++ " V";
    "# Fill Factor = " ++ fmt_f 3 (fillFactor g) ++ " ";
    "# Efficiency = " ++ fmt_f 3 (efficiency g);
    "# Voltage" ++ tab ++ "Current" ]%string.

(** One data line, line 134, without its line end. *)
Definition data_line (vc : float * float) : string :=
  (fmt_f 5 (fst vc) ++ tab ++ fmt_g 5 (snd vc))%string.

Definition data_lines (v c : list float) : list string :=
  map data_line (combine v c).

(** A text made of the given lines, each ended by LF. *)
Fixpoint unlines (ls : list string) : string :=
  match ls with
  | [] => ""
  | l :: r => (l ++ nl ++ unlines r)%string
  end.

Definition write_line (file l : string) : effect :=
  FileWrite file (l ++ nl)%string.

(** Everything a completed [save_clicked] does. *)
Definition save_effects (chosen : string) (g : globals) : list effect :=
  SaveDialog chosen :: FileOpen chosen ::
  map (write_line chosen)
      (header_lines g ++ data_lines (voltage g) (current g)) ++
  [ FileClose chosen; SetText saveButton "Data Saved";
    SetDisabled saveButton true ].

(** What holds of the panel whenever the event loop is idle. *)
Definition panel_inv (st : state) : Prop :=
  N (vars st) = 100 /\
  List.length (voltage (vars st)) = 100%nat /\
  List.length (current (vars st)) = 100%nat /\
  metrics (vars st) = metrics globals0 /\
  text (gui (env st)) ffOutput = "Fill Factor: 0.00  " /\
  text (gui (env st)) efOutput = "Efficiency: 0.00 " /\
  (SM (vars st) = None ->
   disabled (gui (env st)) startButton = true /\
   disabled (gui (env st)) stopButton = true).

(** Effects that leave the two result labels and the start and stop
    buttons alone. *)
Definition quiet (e : effect) : bool :=
  match e with
  | SetDisabled startButton _ | SetDisabled stopButton _ => false
  | SetText ffOutput _ | SetText efOutput _ => false
  | _ => true
  end.

(** Effects that leave the text of the two result labels alone. *)
Definition keeps_labels (e : effect) : bool :=
  match e with
  | SetText ffOutput _ | SetText efOutput _ => false
  | _ => true
  end.

(** Everything [selectionChange] does. *)
Definition select_effects (name : string) (g : globals) : list effect :=
  [ OpenResource name;
    VisaWrite "syst:beep 440";
    VisaWrite "route:term front";
    VisaWrite "source:function:mode volt";
    VisaWrite ("source:volt:start " ++ fmt_f 2 (minV g));
    VisaWrite ("source:volt:stop " ++ fmt_f 2 (maxV g));
    VisaWrite "source:volt:mode sweep";
    VisaWrite "format:elements voltage, current";
    VisaWrite ("source:sweep:points " ++ fmt_d (N g));
    VisaWrite ("trig:count " ++ fmt_d (N g));
    SetDisabled portMenu false; SetDisabled startButton false;
    SetDisabled startVentry false; SetDisabled stopVentry false;
    SetDisabled fluxEntry false; SetDisabled areaEntry false ].

Definition put_vars (g : globals) (st : state) : state :=
  {| vars := g; env := env st |}.

(** *** Concrete states and replies *)

(** The panel after the operator has picked the instrument. *)
Definition selected : state :=
  step (SelectionChanged "GPIB0::24::INSTR") initial.

(** [k] readings of one volt and one ampere, as the instrument sends them. *)
Definition ones (k : nat) : string := join comma (repeat "1" k).

(** The three-point sweep of the specification, as the instrument would
    send it, and a panel whose point count is three. *)
Definition sweep3 : string := "0.0,0.010,0.5,0.006,1.0,0.000".

Definition globals3 : globals :=
  {| N := 3; minV := 0.0; maxV := 2.0;
     SM := Some {| resource_name := "GPIB0::24::INSTR"; timeout := 30000 |};
     meterSelected := false;
     Imax := 0.0; Imax_index := 0; IVmax := 0.0; IVmax_index := 0;
     zero_index := 0; Vmax := 0.0; fillFactor := 0.0; efficiency := 0.0;
     area := 2.76; flux := 100.0;
     current := np_zeros 3; voltage := np_zeros 3 |}.

Definition bench : state := {| vars := globals3; env := env selected |}.


(** The bench panel after the three-point sweep. *)
Definition swept3 : state := final (processData sweep3 bench).

(** The panel after one complete sweep of a hundred points. *)
Definition swept : state := step (StartClicked (ones 200)) selected.

End Obs.

(** ** Every handler in closed form, and what the event loop keeps *)

Module Shape.
Import Text PyFloat App Obs.
Local Open Scope list_scope.

(** What a handler leaves behind: the exception when it raised, the
    globals, and the effects it added, in order. *)
Definition outcome : Type := option exn * globals * list effect.

Definition pack (o : outcome) (st : state) : result unit :=
  let '(x, g', es) := o in
  let st' := after_effects es (put_vars g' st) in
  match x with
  | None => Done tt st'
  | Some e => Raised e st'
  end.

(** [start_clicked] with a session open. *)
Definition sweep_outcome (reply : string) (g : globals) : outcome :=
  let data := split comma reply in
  match comprehension (field data) (range 0 (2 * N g) 2) with
  | inl x => (Some x, g, opening reply)
  | inr v =>
      match comprehension (field data) (range 1 (2 * N g) 2) with
      | inl x => (Some x, set_voltage v g, opening reply)
      | inr c =>
          (None, set_current c (set_voltage v g),
           opening reply ++ redraw v c ++ [SetDisabled startButton false])
      end
  end.

(** An entry handler: [set] is the assignment, [cmd] the command that tells
    the instrument, if any. *)
Definition edit_outcome (set : float -> globals -> globals)
           (cmd : float -> list effect) (txt : string) (g : globals)
  : outcome :=
  match float_of_str txt with
  | Some x => (None, set x g, cmd x)
  | None => (Some ValueError, g, [])
  end.

(** Each handler, run with its widget enabled in a state the panel can
    reach. *)
Definition summary (e : event) (g : globals) : outcome :=
  match e with
  | SelectionChanged name =>
      (None,
       set_SM (Some {| resource_name := name; timeout := 30000 |}) g,
       select_effects name g)
  | PortChanged port => (None, g, [VisaWrite ("route:term " ++ port)%string])
  | StartClicked reply => sweep_outcome reply g
  | StopClicked =>
      (None, g, [ SetDisabled stopButton true; SetDisabled startButton false;
                  VisaWrite "output off" ])
  | SaveClicked chosen =>
      match chosen with
      | EmptyString => (Some FileNotFoundError, g, [SaveDialog chosen])
      | _ => (None, g, save_effects chosen g)
      end
  | AreaChanged txt => edit_outcome set_area (fun _ => []) txt g
  | FluxChanged txt => edit_outcome set_flux (fun _ => []) txt g
  | StartVEdited txt =>
      edit_outcome set_minV
        (fun x => [VisaWrite ("source:volt:start " ++ fmt_f 2 x)%string]) txt g
  | StopVEdited txt =>
      edit_outcome set_maxV
        (fun x => [VisaWrite ("source:volt:stop " ++ fmt_f 2 x)%string]) txt g
  end.

(** The widgets that [selectionChange] enables and nothing disables. *)
Definition entries : list widget :=
  [portMenu; startVentry; stopVentry; areaEntry; fluxEntry].

(** Without a session every control but the instrument menu is disabled;
    with one, the port menu and the entries are enabled and so is the start
    or the stop button. *)
Definition gate_inv (st : state) : Prop :=
  let off := disabled (gui (env st)) in
  off selectMenu = false /\
  match SM (vars st) with
  | None =>
      forallb off (startButton :: stopButton :: saveButton :: entries) = true
  | Some sm =>
      forallb (fun w => negb (off w)) entries = true /\
      (off startButton = false \/ off stopButton = false) /\
      timeout sm = 30000
  end.

(** [s] begins with [p]. *)
Fixpoint starts_with (p s : string) : bool :=
  match p, s with
  | EmptyString, _ => true
  | String a p', String b s' => Ascii.eqb a b && starts_with p' s'
  | String _ _, EmptyString => false
  end.

(** The last of [cmds] that begins with [p]. *)
Fixpoint last_with (p : string) (cmds : list string) : option string :=
  match cmds with
  | [] => None
  | c :: r =>
      match last_with p r with
      | Some x => Some x
      | None => if starts_with p c then Some c else None
      end
  end.

(** The setting the instrument was last given under the command name [p]. *)
Definition configured (p : string) (st : state) : option string :=
  last_with p (sent (trace (env st))).

(** From the selection on, the instrument holds the sweep the globals
    describe. *)
Definition sync_inv (st : state) : Prop :=
  SM (vars st) <> None ->
  let g := vars st in
  configured "source:function:mode " st = Some "source:function:mode volt" /\
  configured "source:volt:start " st
    = Some ("source:volt:start " ++ fmt_f 2 (minV g))%string /\
  configured "source:volt:stop " st
    = Some ("source:volt:stop " ++ fmt_f 2 (maxV g))%string /\
  configured "source:volt:mode " st = Some "source:volt:mode sweep" /\
  configured "format:elements " st = Some "format:elements voltage, current" /\
  configured "source:sweep:points " st = Some "source:sweep:points 100" /\
  configured "trig:count " st = Some "trig:count 100" /\
  (configured "route:term " st = Some "route:term front" \/
   exists port, In port ports /\
     configured "route:term " st = Some ("route:term " ++ port)%string).

(** The plot of one sweep. *)
Definition plot_of (v c : list float) : plot :=
  {| series := [(v, times_1000 c, "r.")];
     xlabel := "Voltage (V)"; ylabel := "Current (mA)" |}.

(** The screen shows the axes; before the first completed sweep nothing is
    plotted, nothing can be saved and nothing has been; after it the plot
    holds one series, whose currents are the stored ones. *)
Definition plot_inv (st : state) : Prop :=
  canvas (env st) = axes (env st) /\
  ((axes (env st) = empty_plot /\
    current (vars st) = np_zeros 100 /\
    disabled (gui (env st)) saveButton = true /\
    text (gui (env st)) saveButton = "Save Data" /\
    files (env st) = [])
   \/
   (exists v, List.length v = 100%nat /\
              axes (env st) = plot_of v (current (vars st)))).

(** The two texts of the save button. *)
Definition label_inv (st : state) : Prop :=
  text (gui (env st)) saveButton = "Save Data" \/
  text (gui (env st)) saveButton = "Data Saved".

(** The number of occurrences of [c] in [s]. *)
Fixpoint count_char (c : ascii) (s : string) : nat :=
  match s with
  | EmptyString => O
  | String d r => (if Ascii.eqb d c then 1 else 0) + count_char c r
  end.

(** Every file written so far has a name and the 107 lines of a full
    export. *)
Definition files_inv (st : state) : Prop :=
  Forall (fun nc => fst nc <> "" /\ List.length (lines (snd nc)) = 107%nat)
         (files (env st)).

(** The sweep as a list of six steps with no word on the stop button:
    start disabled, output on, the read, output off, the processing, start
    enabled. *)
Definition six_steps (reply : string) (v c : list float) : list effect :=
  [ SetDisabled startButton true;
    VisaWrite "output on"; VisaQuery "read?" reply; VisaWrite "output off" ]
  ++ redraw v c ++ [ SetDisabled startButton false ].

(** *** The one thread and its event loop

    The program has one thread.  It takes the next event only from the
    event loop, runs the handler statement after statement, and inside
    [SM.query] it is blocked from the command until the reply is there. *)

Inductive prog : Type :=
| Halt
| Do (a : M unit) (rest : prog)
| Ask (cmd : string) (k : string -> prog).

(** [start_clicked], lines 101-108, statement by statement: what runs
    once the read has returned, and the whole handler. *)
Definition after_read (datastring : string) : prog :=
  Do (SM_write "output off")
  (Do (processData datastring)
  (Do (perform (SetDisabled startButton false)) Halt)).

Definition start_prog : prog :=
  Do (perform (SetDisabled startButton true))
  (Do (perform (SetDisabled stopButton false))
  (Do (SM_write "output on")
  (Ask "read?" after_read))).

(** The other handlers make no query: each is one step of the thread. *)
Definition prog_of (e : event) : prog :=
  match e with
  | StartClicked _ => start_prog
  | _ => Do (handler e) Halt
  end.

Inductive thread : Type :=
| Idle
| Running (p : prog)
| Blocked (cmd : string) (k : string -> prog).

Inductive label : Type :=
| Take (e : event)
| Tick
| Send (cmd : string)
| Receive (reply : string).

(** One step of the thread.  An exception ends the handler; the loop is
    let go on from there, which covers a process that ends at that point. *)
Inductive loop : state * thread -> label -> state * thread -> Prop :=
| loop_take e st :
    enabled e st = true ->
    loop (st, Idle) (Take e) (st, Running (prog_of e))
| loop_do a rest st st' :
    a st = Done tt st' ->
    loop (st, Running (Do a rest)) Tick (st', Running rest)
| loop_raise a rest x st st' :
    a st = Raised x st' ->
    loop (st, Running (Do a rest)) Tick (st', Idle)
| loop_send cmd k st sm :
    SM (vars st) = Some sm ->
    loop (st, Running (Ask cmd k)) (Send cmd) (st, Blocked cmd k)
| loop_unset cmd k st :
    SM (vars st) = None ->
    loop (st, Running (Ask cmd k)) Tick (st, Idle)
| loop_receive cmd k reply st :
    loop (st, Blocked cmd k) (Receive reply)
         (final (perform (VisaQuery cmd reply) st), Running (k reply))
| loop_halt st :
    loop (st, Running Halt) Tick (st, Idle).

Inductive run : state * thread -> list label -> state * thread -> Prop :=
| run_nil c : run c [] c
| run_cons c l c' ls c'' : loop c l c' -> run c' ls c'' -> run c (l :: ls) c''.

(** The thread inside the read of a sweep started from [st]. *)
Definition reading_from (st : state) : state * thread :=
  (after_effects [ SetDisabled startButton true; SetDisabled stopButton false;
                   VisaWrite "output on" ] st,
   Blocked "read?" after_read).




(** *** More concrete states *)

(** The panel after the rear port was picked and the start voltage set to
    half a volt. *)
Definition retuned : state :=
  step (StartVEdited "0.5") (step (PortChanged "Rear") selected).

(** The panel after a complete sweep was saved. *)
Definition saved : state := step (SaveClicked "sweep.txt") swept.

End Shape.

(** ** Properties *)

Module Props.
Import Text PyFloat App Obs.
Local Open Scope list_scope.
Local Open Scope py_scope.

Lemma skipn_length_app {A} (l r : list A) : skipn (List.length l) (l ++ r) = r.
Proof. induction l; simpl; auto. Qed.

Ltac proj_state :=
  cbn [final raised vars voltage current put_voltage put_current
       set_voltage set_current after_effects].

Ltac flatten_trace :=
  repeat rewrite <- app_assoc; simpl app; rewrite skipn_length_app.

(** *** The monad and the built-ins *)

Lemma div2_odd (n : Z) : (2 * n + 1) / 2 = n.
Proof. symmetry; apply Z.div_unique with (r := 1); lia. Qed.

Lemma div2_even (n : Z) : (2 * n) / 2 = n.
Proof. symmetry; apply Z.div_unique with (r := 0); lia. Qed.

(** The indices of the voltage fields, [range(0, 2*N, 2)]. *)
Lemma range_even (n : Z) :
  range 0 (2 * n) 2 =
  map (fun k => Z.of_nat (2 * k)) (seq 0 (Z.to_nat n)).
Proof.
  unfold range. replace (2 * n - 0 + 2 - 1) with (2 * n + 1) by lia.
  rewrite div2_odd. apply map_ext. intros; lia.
Qed.

(** The indices of the current fields, [range(1, 2*N, 2)]. *)
Lemma range_odd (n : Z) :
  range 1 (2 * n) 2 =
  map (fun k => Z.of_nat (2 * k + 1)) (seq 0 (Z.to_nat n)).
Proof.
  unfold range. replace (2 * n - 1 + 2 - 1) with (2 * n) by lia.
  rewrite div2_even. apply map_ext. intros; lia.
Qed.

(** [range(N)]. *)
Lemma range_unit (n : Z) :
  range 0 n 1 = map Z.of_nat (seq 0 (Z.to_nat n)).
Proof.
  unfold range. replace (n - 0 + 1 - 1) with n by lia.
  rewrite Z.div_1_r. apply map_ext. intros; lia.
Qed.

Lemma getitem_nat {A} (l : list A) (k : nat) :
  getitem l (Z.of_nat k) =
  match nth_error l k with Some a => inr a | None => inl IndexError end.
Proof.
  unfold getitem.
  destruct (Z.ltb_spec (Z.of_nat k) 0) as [H|_]; [lia|].
  destruct (Z.ltb_spec (Z.of_nat k) 0) as [H|_]; [lia|]. simpl.
  rewrite Nat2Z.id.
  destruct (Z.leb_spec (Z.of_nat (List.length l)) (Z.of_nat k)) as [H|H].
  - assert (Hn : nth_error l k = None) by (apply nth_error_None; lia).
    now rewrite Hn.
  - reflexivity.
Qed.

Lemma comprehension_inr {A} (f : Z -> exn + A) (js : list Z) (l : list A) :
  comprehension f js = inr l <-> Forall2 (fun j a => f j = inr a) js l.
Proof.
  revert l. induction js as [|j r IH]; intros l; simpl.
  - split.
    + intros H; inversion H; constructor.
    + intros H; inversion H; reflexivity.
  - destruct (f j) as [e|a] eqn:Hj.
    + split; [discriminate|]. intros H; inversion H; congruence.
    + destruct (comprehension f r) as [e|l'] eqn:Hr.
      * split; [discriminate|]. intros H; inversion H; subst.
        match goal with H' : Forall2 _ r _ |- _ => apply IH in H' end.
        discriminate.
      * split.
        -- intros H; inversion H; subst. constructor; [assumption|].
           now apply IH.
        -- intros H; inversion H; subst.
           match goal with H' : Forall2 _ r _ |- _ => apply IH in H' end.
           congruence.
Qed.

Lemma comprehension_inl {A} (f : Z -> exn + A) (js : list Z) (e : exn) :
  comprehension f js = inl e -> exists j, In j js /\ f j = inl e.
Proof.
  induction js as [|j r IH]; simpl; [discriminate|].
  destruct (f j) as [e'|a] eqn:Hj.
  - intros H; inversion H; subst. exists j; auto.
  - destruct (comprehension f r) as [e'|l'] eqn:Hr; [|discriminate].
    intros H; inversion H; subst.
    destruct (IH eq_refl) as (j' & Hin & Hf). exists j'; auto.
Qed.

Lemma comprehension_length {A} (f : Z -> exn + A) (js : list Z) (l : list A) :
  comprehension f js = inr l -> List.length l = List.length js.
Proof.
  intros H. apply comprehension_inr in H.
  symmetry. eapply Forall2_length; eassumption.
Qed.

(** A comprehension succeeds exactly when every element does. *)
Lemma comprehension_total {A} (f : Z -> exn + A) (js : list Z) :
  (forall j, In j js -> exists a, f j = inr a) ->
  exists l, comprehension f js = inr l.
Proof.
  induction js as [|j r IH]; intros H; simpl; [eexists; reflexivity|].
  destruct (H j (or_introl eq_refl)) as [a Ha]. rewrite Ha.
  destruct IH as [l Hl]; [intros; apply H; now right|].
  rewrite Hl. eexists; reflexivity.
Qed.

Lemma field_errors (data : list string) (j : Z) (e : exn) :
  field data j = inl e -> e = IndexError \/ e = ValueError.
Proof.
  unfold field, getitem, py_float.
  destruct ((_ <? 0) || _)%bool.
  - intros H; inversion H; auto.
  - destruct (nth_error data _) as [t|].
    + destruct (float_of_str t); intros H; inversion H; auto.
    + intros H; inversion H; auto.
Qed.

Lemma field_nat (data : list string) (m : nat) :
  field data (Z.of_nat m) =
  match nth_error data m with
  | Some t => py_float t
  | None => inl IndexError
  end.
Proof.
  unfold field. rewrite getitem_nat. now destruct (nth_error data m).
Qed.

Lemma field_inr (data : list string) (m : nat) (x : float) :
  field data (Z.of_nat m) = inr x <->
  (m < List.length data)%nat /\ float_of_str (nth m data "") = Some x.
Proof.
  rewrite field_nat. unfold py_float. split.
  - destruct (nth_error data m) as [t|] eqn:Ht; [|discriminate].
    intros H. split; [apply nth_error_Some; congruence|].
    rewrite (nth_error_nth _ _ "" Ht).
    destruct (float_of_str t); congruence.
  - intros [Hlt Hx]. rewrite (nth_error_nth' _ "" Hlt), Hx. reflexivity.
Qed.

(** A comprehension over [g 0, ..., g (n-1)], element by element. *)
Lemma comprehension_seq {A} (f : Z -> exn + A) (g : nat -> Z) (n : nat)
      (l : list A) :
  comprehension f (map g (seq 0 n)) = inr l <->
  List.length l = n /\
  forall k, (k < n)%nat -> exists a, nth_error l k = Some a /\ f (g k) = inr a.
Proof.
  revert g l. induction n as [|n IH]; intros g l.
  - simpl. split.
    + intros H; inversion H; subst. split; [reflexivity|]. intros; lia.
    + intros [H _]. destruct l; [reflexivity|discriminate].
  - change (seq 0 (S n)) with (0%nat :: seq 1 n).
    rewrite <- seq_shift. cbn [map]. rewrite map_map. cbn [comprehension].
    destruct (f (g 0%nat)) as [e|a] eqn:H0.
    + split; [discriminate|]. intros [_ H].
      destruct (H 0%nat) as (a & _ & Ha); [lia|congruence].
    + destruct (comprehension f (map (fun x => g (S x)) (seq 0 n)))
        as [e|l0] eqn:Hr.
      * split; [discriminate|]. intros [Hl H].
        destruct l as [|a' l']; [discriminate|].
        assert (Hl' : comprehension f (map (fun x => g (S x)) (seq 0 n)) = inr l').
        { apply IH. split; [simpl in Hl; lia|].
          intros k Hk. destruct (H (S k)) as (b & Hb & Hf); [lia|].
          exists b; auto. }
        congruence.
      * apply IH in Hr as [Hl0 Hk0]. split.
        -- intros H; inversion H; subst. split; [reflexivity|].
           intros [|k] Hlt; simpl; [exists a; auto|apply Hk0; lia].
        -- intros [Hl H]. destruct l as [|a' l']; [discriminate|].
           destruct (H 0%nat) as (b & Hb & Hf); [lia|].
           simpl in Hb. assert (a' = a) by congruence. subst a'.
           assert (Hl' : comprehension f (map (fun x => g (S x)) (seq 0 n)) = inr l').
           { apply IH. split; [simpl in Hl; lia|].
             intros k Hk. destruct (H (S k)) as (c & Hc & Hfc); [lia|].
             exists c; auto. }
           assert (Hl0' : comprehension f (map (fun x => g (S x)) (seq 0 n)) = inr l0).
           { apply IH. split; assumption. }
           congruence.
Qed.

(** *** [processData], case by case *)

Lemma processData_cases (dataString : string) (st : state) :
  let data := split comma dataString in
  let n := N (vars st) in
  processData dataString st =
  match comprehension (field data) (range 0 (2 * n) 2) with
  | inl e => Raised e st
  | inr v =>
      match comprehension (field data) (range 1 (2 * n) 2) with
      | inl e => Raised e (put_voltage v st)
      | inr c =>
          Done tt (after_effects (redraw v c) (put_current c (put_voltage v st)))
      end
  end.
Proof.
  intros data n. unfold processData, bind, read, lift, assign. fold data.
  cbv beta. fold n.
  destruct (comprehension (field data) (range 0 (2 * n) 2)) as [e|v].
  - destruct st; reflexivity.
  - cbv beta iota delta [ret raise]. cbn [vars N set_voltage]. fold n.
    destruct (comprehension (field data) (range 1 (2 * n) 2)) as [e|c];
      reflexivity.
Qed.

Lemma good_field (data : list string) (m : nat) :
  good data m <-> exists x, field data (Z.of_nat m) = inr x.
Proof.
  unfold good. split.
  - intros [Hlt Hx]. destruct (float_of_str (nth m data "")) as [x|] eqn:E;
      [|congruence].
    exists x. apply field_inr; auto.
  - intros [x Hx]. apply field_inr in Hx as [Hlt Hx]. split; congruence.
Qed.

Lemma fields_ok_iff (data : list string) (g : nat -> nat) (n : nat) :
  (exists l, comprehension (field data)
               (map (fun k => Z.of_nat (g k)) (seq 0 n)) = inr l) <->
  forall k, (k < n)%nat -> good data (g k).
Proof.
  split.
  - intros [l Hl] k Hk. apply comprehension_seq in Hl as [_ Hl].
    destruct (Hl k Hk) as (a & _ & Ha). apply good_field. eauto.
  - intros H. apply comprehension_total. intros j Hj.
    apply in_map_iff in Hj as (k & <- & Hk). apply in_seq in Hk.
    apply good_field. apply H. lia.
Qed.

Lemma comprehension_error (data : list string) (js : list Z) (e : exn) :
  comprehension (field data) js = inl e -> e = IndexError \/ e = ValueError.
Proof.
  intros H. apply comprehension_inl in H as (j & _ & Hj).
  eapply field_errors; eassumption.
Qed.

Lemma all_fields_split (P : nat -> Prop) (n : nat) :
  (forall k, (k < 2 * n)%nat -> P k) <->
  (forall j, (j < n)%nat -> P (2 * j)%nat) /\
  (forall j, (j < n)%nat -> P (2 * j + 1)%nat).
Proof.
  split.
  - intros H; split; intros j Hj; apply H; lia.
  - intros [He Ho] k Hk.
    destruct (Nat.Even_or_Odd k) as [[j ->]|[j ->]]; [apply He|apply Ho]; lia.
Qed.

(** *** Effects and the world *)

Lemma trace_fold (es : list effect) (w : world) :
  trace (fold_left (fun w e => world_apply e w) es w) = trace w ++ es.
Proof.
  revert w. induction es as [|e r IH]; intros w; simpl.
  - now rewrite app_nil_r.
  - rewrite IH. simpl. now rewrite <- app_assoc.
Qed.

Lemma gui_fold (es : list effect) (w : world) :
  gui (fold_left (fun w e => world_apply e w) es w) = ui_replay es (gui w).
Proof.
  revert w. unfold ui_replay. induction es as [|e r IH]; intros w; simpl;
    [reflexivity|]. now rewrite IH.
Qed.

(** The effects of a computation whose final state is known. *)
Lemma effects_after {A} (c : M A) (st st0 : state) (es : list effect) :
  final (c st) = after_effects es st0 -> env st0 = env st ->
  effects_of c st = es.
Proof.
  intros H He. unfold effects_of. rewrite H. unfold after_effects. simpl.
  rewrite trace_fold, He. apply skipn_length_app.
Qed.

Lemma skip_trace (es : list effect) (st st0 : state) :
  env st0 = env st ->
  skipn (List.length (trace (env st))) (trace (env (after_effects es st0))) = es.
Proof.
  intros He. unfold after_effects. cbn [env].
  rewrite trace_fold, He. apply skipn_length_app.
Qed.

Lemma ui_replay_quiet (es : list effect) (u : ui) :
  forallb quiet es = true ->
  let u' := ui_replay es u in
  disabled u' startButton = disabled u startButton /\
  disabled u' stopButton = disabled u stopButton /\
  text u' ffOutput = text u ffOutput /\
  text u' efOutput = text u efOutput.
Proof.
  revert u. unfold ui_replay.
  induction es as [|e r IH]; intros u H; simpl in *; [auto|].
  apply andb_true_iff in H as [He Hr].
  destruct (IH (ui_apply e u) Hr) as (H1 & H2 & H3 & H4).
  rewrite H1, H2, H3, H4.
  destruct e as [w b|w t| | | | | | | | | | | |]; simpl; auto;
    destruct w; simpl in He; try discriminate; auto.
Qed.

(** *** [save_clicked], when every index is in range *)

Lemma sapp_assoc (a b c : string) : ((a ++ b) ++ c = a ++ (b ++ c))%string.
Proof. induction a as [|x a IH]; simpl; [reflexivity|now rewrite IH]. Qed.

Lemma sapp_nil_r (a : string) : (a ++ "" = a)%string.
Proof. induction a as [|x a IH]; simpl; [reflexivity|now rewrite IH]. Qed.

Lemma save_row_done (file : string) (k : nat) (st : state) :
  (k < List.length (voltage (vars st)))%nat ->
  (k < List.length (current (vars st)))%nat ->
  save_row file (Z.of_nat k) st =
  Done tt (after_effects
             [write_line file
                (data_line (nth k (voltage (vars st)) 0%float,
                            nth k (current (vars st)) 0%float))] st).
Proof.
  intros Hv Hc. unfold save_row, bind, read, lift.
  rewrite getitem_nat, (nth_error_nth' _ 0%float Hv). cbn [ret vars].
  rewrite getitem_nat, (nth_error_nth' _ 0%float Hc). cbn [ret vars].
  unfold write_line, data_line, perform, after_effects. cbn [fst snd fold_left].
  rewrite !sapp_assoc. destruct st; reflexivity.
Qed.

Lemma save_rows_done (file : string) (ks : list nat) (st : state) :
  (forall k, In k ks ->
             (k < List.length (voltage (vars st)))%nat /\
             (k < List.length (current (vars st)))%nat) ->
  for_each (map Z.of_nat ks) (save_row file) st =
  Done tt (after_effects
             (map (fun k => write_line file
                              (data_line (nth k (voltage (vars st)) 0%float,
                                          nth k (current (vars st)) 0%float)))
                  ks) st).
Proof.
  revert st. induction ks as [|k r IH]; intros st H.
  - destruct st; reflexivity.
  - cbn [map for_each]. unfold bind.
    destruct (H k (or_introl eq_refl)) as [Hv Hc].
    rewrite (save_row_done file k st Hv Hc).
    rewrite IH; [reflexivity|].
    intros k' Hk'. apply H. now right.
Qed.

Lemma map_nth_combine {A B C} (f : A * B -> C) (dA : A) (dB : B)
      (v : list A) (c : list B) :
  List.length v = List.length c ->
  map (fun k => f (nth k v dA, nth k c dB)) (seq 0 (List.length v))
  = map f (combine v c).
Proof.
  revert c. induction v as [|x v IH]; intros [|y c] H; simpl in *;
    try reflexivity; try discriminate.
  f_equal. rewrite <- seq_shift, map_map. apply IH. lia.
Qed.

Lemma save_clicked_done (chosen : string) (st : state) (n : nat) :
  chosen <> "" ->
  N (vars st) = Z.of_nat n ->
  List.length (voltage (vars st)) = n ->
  List.length (current (vars st)) = n ->
  save_clicked chosen st =
  Done tt (after_effects (save_effects chosen (vars st)) st).
Proof.
  intros Hname HN Hv Hc. unfold save_clicked, open_w.
  destruct chosen as [|a chosen]; [congruence|].
  set (file := String a chosen).
  unfold bind at 1. cbn [perform].
  unfold bind at 1. unfold bind at 1. cbn [perform ret].
  repeat (unfold bind at 1; cbn [read perform vars env]).
  rewrite HN, range_unit, Nat2Z.id.
  rewrite save_rows_done.
  2:{ cbn [vars]. intros k Hk. apply in_seq in Hk. lia. }
  cbv beta iota. cbn [perform vars env after_effects].
  unfold save_effects, after_effects.
  cbn [fold_left]. rewrite fold_left_app, map_app, fold_left_app.
  cbn [fold_left]. unfold data_lines. rewrite map_map.
  rewrite <- (map_nth_combine (fun vc => write_line file (data_line vc))
                0%float 0%float) by congruence.
  rewrite Hv. unfold header_lines. cbn [map fold_left].
  unfold write_line at 3 4 5 6 7 8 9.
  rewrite !sapp_assoc. unfold perform. cbn [vars env]. reflexivity.
Qed.


(** *** The handlers in closed form *)

Lemma selectionChange_done (name : string) (st : state) :
  selectionChange name st =
  Done tt (after_effects (select_effects name (vars st))
             (put_vars (set_SM (Some {| resource_name := name;
                                         timeout := 30000 |}) (vars st)) st)).
Proof. reflexivity. Qed.

Lemma stop_clicked_cases (st : state) :
  stop_clicked st =
  match SM (vars st) with
  | Some _ =>
      Done tt (after_effects [ SetDisabled stopButton true;
                               SetDisabled startButton false;
                               VisaWrite "output off" ] st)
  | None =>
      Raised AttributeError
             (after_effects [ SetDisabled stopButton true;
                              SetDisabled startButton false ] st)
  end.
Proof.
  unfold stop_clicked, SM_write, bind, read, perform. cbn [vars env].
  destruct (SM (vars st)); reflexivity.
Qed.

Lemma start_clicked_cases (reply : string) (st : state) (sm : session) :
  SM (vars st) = Some sm ->
  let data := split comma reply in
  let n := N (vars st) in
  start_clicked reply st =
  match comprehension (field data) (range 0 (2 * n) 2) with
  | inl e => Raised e (after_effects (opening reply) st)
  | inr v =>
      match comprehension (field data) (range 1 (2 * n) 2) with
      | inl e => Raised e (after_effects (opening reply) (put_voltage v st))
      | inr c =>
          Done tt (after_effects
                     (opening reply ++ redraw v c
                      ++ [SetDisabled startButton false])
                     (put_current c (put_voltage v st)))
      end
  end.
Proof.
  intros H data n.
  assert (E : start_clicked reply st =
              match processData reply (after_effects (opening reply) st) with
              | Done _ st' =>
                  Done tt (after_effects [SetDisabled startButton false] st')
              | Raised e st' => Raised e st'
              end).
  { unfold start_clicked, SM_write, SM_query, bind, read, perform, ret.
    repeat (cbn [vars env]; rewrite ?H). reflexivity. }
  rewrite E, processData_cases. cbn [vars after_effects]. fold data n.
  destruct (comprehension (field data) (range 0 (2 * n) 2)) as [e|v];
    [reflexivity|].
  destruct (comprehension (field data) (range 1 (2 * n) 2)) as [e|c];
    reflexivity.
Qed.

(** *** The invariant of the event loop *)

Lemma ui_replay_labels (es : list effect) (u : ui) :
  forallb keeps_labels es = true ->
  text (ui_replay es u) ffOutput = text u ffOutput /\
  text (ui_replay es u) efOutput = text u efOutput.
Proof.
  revert u. unfold ui_replay.
  induction es as [|e r IH]; intros u H; simpl in *; [auto|].
  apply andb_true_iff in H as [He Hr].
  destruct (IH (ui_apply e u) Hr) as (H1 & H2). rewrite H1, H2.
  destruct e as [w b|w t| | | | | | | | | | | |]; simpl; auto;
    destruct w; simpl in He; try discriminate; auto.
Qed.

Lemma inv_after (st : state) (g' : globals) (es : list effect) :
  panel_inv st ->
  N g' = N (vars st) ->
  List.length (voltage g') = 100%nat ->
  List.length (current g') = 100%nat ->
  metrics g' = metrics (vars st) ->
  forallb keeps_labels es = true ->
  (SM g' = None -> SM (vars st) = None /\ forallb quiet es = true) ->
  panel_inv (after_effects es (put_vars g' st)).
Proof.
  intros (HN & Hv & Hc & Hm & Hff & Hef & Hsm) HN' Hv' Hc' Hm' Hl Hq.
  unfold panel_inv, after_effects, put_vars. cbn [vars env].
  rewrite gui_fold.
  destruct (ui_replay_labels es (gui (env st)) Hl) as [L1 L2].
  split; [congruence|]. split; [assumption|]. split; [assumption|].
  split; [congruence|]. split; [congruence|]. split; [congruence|].
  intros Hnone. destruct (Hq Hnone) as [Hn Hquiet].
  destruct (ui_replay_quiet es (gui (env st)) Hquiet) as (Q1 & Q2 & _).
  rewrite Q1, Q2. now apply Hsm.
Qed.

Lemma inv_initial : panel_inv initial.
Proof.
  unfold panel_inv. repeat split; try reflexivity.
Qed.

Lemma quiet_keeps_labels (es : list effect) :
  forallb quiet es = true -> forallb keeps_labels es = true.
Proof.
  induction es as [|e r IH]; simpl; [auto|].
  intros H. apply andb_true_iff in H as [He Hr]. rewrite (IH Hr), andb_true_r.
  destruct e as [w b|w t| | | | | | | | | | | |]; try reflexivity;
    destruct w; simpl in *; congruence.
Qed.

Lemma save_effects_quiet (chosen : string) (g : globals) :
  forallb quiet (save_effects chosen g) = true.
Proof.
  unfold save_effects. cbn [forallb quiet andb].
  rewrite forallb_app. apply andb_true_iff. split; [|reflexivity].
  apply forallb_forall. intros e He. apply in_map_iff in He as (l & <- & _).
  reflexivity.
Qed.

Lemma enabled_source (e : event) (st : state) :
  enabled e st = true -> disabled (gui (env st)) (source e) = false.
Proof.
  unfold enabled. intros H. apply andb_true_iff in H as [H _].
  now apply negb_true_iff in H.
Qed.

(** Every handler, run from a state where its widget is enabled, keeps
    the invariant, whether it returns or raises. *)
Lemma inv_step (e : event) (st : state) :
  panel_inv st -> enabled e st = true -> panel_inv (step e st).
Proof.
  intros Hinv Hen. pose proof (enabled_source e st Hen) as Hsrc.
  pose proof Hinv as (HN & Hv & Hc & Hm & Hff & Hef & Hsm).
  unfold step. destruct e as [name|port|reply| |chosen|txt|txt|txt|txt];
    cbn [handler source] in *.
  - (* the instrument is picked *)
    rewrite selectionChange_done. cbn [final].
    apply inv_after; auto; try reflexivity. discriminate.
  - (* the port is picked *)
    unfold portSet, SM_write, bind, read. cbn [vars].
    destruct (SM (vars st)) eqn:Esm; [|exact Hinv].
    refine (inv_after st (vars st) [VisaWrite _] Hinv _ _ _ _ _ _); auto;
      try (cbn [SM set_voltage set_current set_minV set_maxV]; intros; congruence).
  - (* start *)
    destruct (SM (vars st)) as [sm|] eqn:Esm;
      [|destruct (Hsm eq_refl); congruence].
    rewrite (start_clicked_cases reply st sm Esm), HN.
    rewrite range_even, range_odd. change (Z.to_nat 100) with 100%nat.
    destruct (comprehension _ (map (fun k => Z.of_nat (2 * k)) (seq 0 100)))
      as [e|v] eqn:Ev.
    + refine (inv_after st (vars st) (opening reply) Hinv _ _ _ _ _ _); auto;
      try (cbn [SM set_voltage set_current set_minV set_maxV]; intros; congruence).
    + apply comprehension_length in Ev. rewrite length_map, length_seq in Ev.
      destruct (comprehension _
                  (map (fun k => Z.of_nat (2 * k + 1)) (seq 0 100)))
        as [e|c] eqn:Ec.
      * refine (inv_after st (set_voltage v (vars st)) (opening reply)
                          Hinv _ _ _ _ _ _); auto;
      try (cbn [SM set_voltage set_current set_minV set_maxV]; intros; congruence).
      * apply comprehension_length in Ec.
        rewrite length_map, length_seq in Ec.
        refine (inv_after st (set_current c (set_voltage v (vars st)))
                  (opening reply ++ redraw v c ++ [SetDisabled startButton false])
                  Hinv _ _ _ _ _ _); auto;
      try (cbn [SM set_voltage set_current set_minV set_maxV]; intros; congruence).
  - (* stop *)
    destruct (SM (vars st)) as [sm|] eqn:Esm;
      [|destruct (Hsm eq_refl); congruence].
    rewrite stop_clicked_cases, Esm.
    refine (inv_after st (vars st) [_; _; _] Hinv _ _ _ _ _ _); auto;
      try (cbn [SM set_voltage set_current set_minV set_maxV]; intros; congruence).
  - (* save *)
    destruct chosen as [|a chosen].
    + refine (inv_after st (vars st) [SaveDialog ""] Hinv _ _ _ _ _ _); auto.
    + rewrite (save_clicked_done (String a chosen) st 100);
        auto; [|discriminate].
      refine (inv_after st (vars st) (save_effects _ _) Hinv _ _ _ _ _ _);
        auto.
      * apply quiet_keeps_labels, save_effects_quiet.
      * intros H. split; [assumption|apply save_effects_quiet].
  - (* area *)
    unfold areaSet, bind, lift, py_float.
    destruct (float_of_str txt) as [x|]; [|exact Hinv].
    refine (inv_after st (set_area x (vars st)) [] Hinv _ _ _ _ _ _); auto.
  - (* flux *)
    unfold fluxSet, bind, lift, py_float.
    destruct (float_of_str txt) as [x|]; [|exact Hinv].
    refine (inv_after st (set_flux x (vars st)) [] Hinv _ _ _ _ _ _); auto.
  - (* start voltage *)
    unfold minVset, SM_write, bind, lift, py_float, read, assign.
    destruct (float_of_str txt) as [x|]; [|exact Hinv]. cbn [ret vars].
    cbn [SM set_minV].
    destruct (SM (vars st)) eqn:Esm.
    + refine (inv_after st (set_minV x (vars st)) [VisaWrite _] Hinv
                        _ _ _ _ _ _); auto;
      try (cbn [SM set_voltage set_current set_minV set_maxV]; intros; congruence).
    + refine (inv_after st (set_minV x (vars st)) [] Hinv _ _ _ _ _ _); auto.
  - (* stop voltage *)
    unfold maxVset, SM_write, bind, lift, py_float, read, assign.
    destruct (float_of_str txt) as [x|]; [|exact Hinv]. cbn [ret vars].
    cbn [SM set_maxV].
    destruct (SM (vars st)) eqn:Esm.
    + refine (inv_after st (set_maxV x (vars st)) [VisaWrite _] Hinv
                        _ _ _ _ _ _); auto;
      try (cbn [SM set_voltage set_current set_minV set_maxV]; intros; congruence).
    + refine (inv_after st (set_maxV x (vars st)) [] Hinv _ _ _ _ _ _); auto.
Qed.

Lemma reachable_inv (st : state) : reachable st -> panel_inv st.
Proof.
  induction 1 as [|e st Hr IH Hen]; [apply inv_initial|now apply inv_step].
Qed.

(** Where a handler that talks to the instrument can run, a session is
    open. *)
Lemma reachable_session (st : state) :
  reachable st ->
  disabled (gui (env st)) startButton = false \/
  disabled (gui (env st)) stopButton = false ->
  exists sm, SM (vars st) = Some sm.
Proof.
  intros Hr Hen. destruct (reachable_inv st Hr) as (_ & _ & _ & _ & _ & _ & H).
  destruct (SM (vars st)) as [sm|]; [eauto|].
  destruct (H eq_refl) as [H1 H2]. destruct Hen; congruence.
Qed.

Lemma reachable_selected : reachable selected.
Proof. apply reach_event; [apply reach_initial|reflexivity]. Qed.

Lemma reachable_swept : reachable swept.
Proof. apply reach_event; [apply reachable_selected|reflexivity]. Qed.

(** *** The characters of a formatted number *)

Lemma all_chars_app (p : ascii -> bool) (a b : string) :
  all_chars p (a ++ b) = all_chars p a && all_chars p b.
Proof.
  induction a as [|x a IH]; simpl; [reflexivity|].
  now rewrite IH, andb_assoc.
Qed.

Lemma all_chars_rev_onto (p : ascii -> bool) (s acc : string) :
  all_chars p (rev_onto s acc) = all_chars p s && all_chars p acc.
Proof.
  revert acc. induction s as [|x s IH]; intros acc; simpl; [reflexivity|].
  rewrite IH. simpl. destruct (p x), (all_chars p s), (all_chars p acc);
    reflexivity.
Qed.

Lemma all_chars_rev (p : ascii -> bool) (s : string) :
  all_chars p (Text.rev s) = all_chars p s.
Proof. unfold Text.rev. rewrite all_chars_rev_onto. simpl. apply andb_true_r. Qed.

Lemma all_chars_drop_zeros (p : ascii -> bool) (s : string) :
  all_chars p s = true -> all_chars p (drop_zeros s) = true.
Proof.
  induction s as [|x s IH]; simpl; [auto|].
  intros H. apply andb_true_iff in H as [Hx Hs].
  destruct (Ascii.eqb x "0"); [auto|]. simpl. now rewrite Hx, Hs.
Qed.

Lemma all_chars_strip_zeros_right (p : ascii -> bool) (s : string) :
  all_chars p s = true -> all_chars p (strip_zeros_right s) = true.
Proof.
  intros H. unfold strip_zeros_right. rewrite all_chars_rev.
  apply all_chars_drop_zeros. now rewrite all_chars_rev.
Qed.

Lemma all_chars_substring (p : ascii -> bool) (s : string) (n m : nat) :
  all_chars p s = true -> all_chars p (substring n m s) = true.
Proof.
  revert n m. induction s as [|x s IH]; intros n m H.
  - destruct n, m; reflexivity.
  - simpl in H. apply andb_true_iff in H as [Hx Hs].
    destruct n as [|n]; [destruct m as [|m]|]; simpl; auto.
    rewrite Hx. simpl. auto.
Qed.

Lemma all_chars_zeros (n : nat) : all_chars numeric_char (zeros n) = true.
Proof. induction n as [|n IH]; simpl; auto. Qed.

Lemma all_chars_uint (u : Decimal.uint) :
  all_chars numeric_char (NilEmpty.string_of_uint u) = true.
Proof. induction u; simpl; auto. Qed.

Lemma all_chars_dec (z : Z) : all_chars numeric_char (dec z) = true.
Proof.
  unfold dec, NilZero.string_of_uint.
  destruct (N.to_uint (Z.to_N z)) eqn:E; try reflexivity;
    rewrite <- E; apply all_chars_uint.
Qed.

Lemma all_chars_dec_pad (w : nat) (z : Z) :
  all_chars numeric_char (dec_pad w z) = true.
Proof.
  unfold dec_pad. now rewrite all_chars_app, all_chars_zeros, all_chars_dec.
Qed.

Lemma all_chars_sign (b : bool) : all_chars numeric_char (sign_str b) = true.
Proof. destruct b; reflexivity. Qed.

Lemma all_chars_fixed (r : Z) (p : nat) :
  all_chars numeric_char (fixed_digits r p) = true.
Proof.
  unfold fixed_digits. destruct p; [apply all_chars_dec|].
  rewrite !all_chars_app, all_chars_dec, all_chars_dec_pad. reflexivity.
Qed.

Lemma all_chars_fmt_f (p : nat) (x : float) :
  all_chars numeric_char (fmt_f p x) = true.
Proof.
  unfold fmt_f. destruct (Prim2SF x); try reflexivity;
    rewrite all_chars_app, all_chars_sign; try reflexivity;
    apply all_chars_fixed.
Qed.

Lemma all_chars_point_frac (s : string) :
  all_chars numeric_char s = true -> all_chars numeric_char (point_frac s) = true.
Proof. destruct s; simpl; auto. Qed.

Lemma all_chars_exp (x : Z) : all_chars numeric_char (exp_str x) = true.
Proof.
  unfold exp_str. rewrite all_chars_app, all_chars_dec_pad.
  destruct (x <? 0); reflexivity.
Qed.

Lemma all_chars_fmt_g (p : nat) (x : float) :
  all_chars numeric_char (fmt_g p x) = true.
Proof.
  unfold fmt_g. destruct (Prim2SF x) as [s|s| |s m e]; try reflexivity;
    try (rewrite all_chars_app, all_chars_sign; reflexivity).
  set (q := match p with O => 1%nat | _ => p end).
  destruct (scaled m e (Z.of_nat q - 1 - dec_exp m e) =? 10 ^ Z.of_nat q);
    rewrite all_chars_app, all_chars_sign; cbn [andb];
    match goal with
    | |- context [dec ?d] => pose proof (all_chars_dec d) as Hd
    end;
    repeat match goal with
           | |- context [if ?b then _ else _] => destruct b
           end;
    rewrite ?all_chars_app, ?all_chars_exp, ?all_chars_zeros;
    rewrite ?all_chars_substring, ?all_chars_point_frac,
            ?all_chars_strip_zeros_right, ?all_chars_substring;
    auto using all_chars_substring, all_chars_strip_zeros_right.
Qed.

(** *** Lines and fields of a text *)

Lemma has_char_app (c : ascii) (a b : string) :
  has_char c (a ++ b) = has_char c a || has_char c b.
Proof.
  induction a as [|x a IH]; simpl; [reflexivity|].
  now rewrite IH, orb_assoc.
Qed.

Lemma has_char_all (p : ascii -> bool) (c : ascii) (s : string) :
  all_chars p s = true -> p c = false -> has_char c s = false.
Proof.
  intros Hs Hc. induction s as [|x s IH]; simpl in *; [reflexivity|].
  apply andb_true_iff in Hs as [Hx Hs]. rewrite (IH Hs), orb_false_r.
  destruct (Ascii.eqb_spec c x) as [->|]; congruence.
Qed.

(** A formatted number holds no line end, no tab and no comma. *)
Lemma numeric_no_sep (s : string) (c : ascii) :
  all_chars numeric_char s = true ->
  c = LF \/ c = TAB \/ c = comma -> has_char c s = false.
Proof.
  intros Hs Hc. apply (has_char_all numeric_char); [assumption|].
  destruct Hc as [->|[->| ->]]; reflexivity.
Qed.

Lemma split_field (c : ascii) (a rest : string) :
  has_char c a = false ->
  split c (a ++ String c rest) = a :: split c rest.
Proof.
  induction a as [|x a IH]; simpl; intros H.
  - now rewrite Ascii.eqb_refl.
  - apply orb_false_iff in H as [Hx Ha]. rewrite Ascii.eqb_sym, Hx.
    now rewrite (IH Ha).
Qed.

Lemma split_last (c : ascii) (a : string) :
  has_char c a = false -> split c a = [a].
Proof.
  induction a as [|x a IH]; simpl; intros H; [reflexivity|].
  apply orb_false_iff in H as [Hx Ha]. rewrite Ascii.eqb_sym, Hx.
  now rewrite (IH Ha).
Qed.

Lemma lines_cons (d : ascii) (r : string) :
  lines (String d r) =
  if Ascii.eqb d LF then EmptyString :: lines r
  else match lines r with
       | f :: fs => String d f :: fs
       | [] => [String d EmptyString]
       end.
Proof. reflexivity. Qed.

Lemma lines_line (l rest : string) :
  has_char LF l = false -> lines (l ++ nl ++ rest) = l :: lines rest.
Proof.
  induction l as [|x l IH]; intros H.
  - reflexivity.
  - cbn [has_char] in H. apply orb_false_iff in H as [Hx Hl].
    cbn [append]. rewrite lines_cons, Ascii.eqb_sym, Hx.
    cbn [append] in IH. now rewrite (IH Hl).
Qed.

Lemma lines_unlines (ls : list string) :
  Forall (fun l => has_char LF l = false) ls -> lines (unlines ls) = ls.
Proof.
  induction 1 as [|l ls Hl _ IH]; [reflexivity|].
  cbn [unlines]. now rewrite lines_line, IH.
Qed.

(** *** The file a save leaves behind *)

Lemma files_fold (es : list effect) (w : world) :
  files (fold_left (fun w e => world_apply e w) es w)
  = fold_left (fun fs e => files_apply e fs) es (files w).
Proof.
  revert w. induction es as [|e r IH]; intros w; simpl; [reflexivity|].
  now rewrite IH.
Qed.

Lemma writes_append (name : string) (ls : list string) (c : string)
      (r : filesystem) :
  fold_left (fun fs e => files_apply e fs) (map (write_line name) ls)
            ((name, c) :: r)
  = (name, (c ++ unlines ls)%string) :: r.
Proof.
  revert c. induction ls as [|l ls IH]; intros c; simpl.
  - now rewrite sapp_nil_r.
  - rewrite String.eqb_refl, IH. now rewrite !sapp_assoc.
Qed.

Lemma saved_content (chosen : string) (g : globals) (st : state) :
  file_content chosen
    (files (env (after_effects (save_effects chosen g) st)))
  = Some (unlines (header_lines g ++ data_lines (voltage g) (current g))).
Proof.
  unfold after_effects, save_effects. cbn [env]. rewrite files_fold.
  cbn [fold_left files_apply]. rewrite fold_left_app, writes_append.
  cbn [fold_left files_apply file_content append]. now rewrite String.eqb_refl.
Qed.

Lemma header_no_LF (g : globals) :
  Forall (fun l => has_char LF l = false) (header_lines g).
Proof.
  unfold header_lines.
  repeat constructor; rewrite ?has_char_app;
    rewrite ?(numeric_no_sep _ LF (all_chars_fmt_f _ _)) by auto;
    reflexivity.
Qed.

Lemma data_line_fields (vc : float * float) :
  has_char LF (data_line vc) = false /\
  split TAB (data_line vc) = [fmt_f 5 (fst vc); fmt_g 5 (snd vc)].
Proof.
  unfold data_line. split.
  - rewrite !has_char_app.
    rewrite (numeric_no_sep _ LF (all_chars_fmt_f _ _)) by auto.
    rewrite (numeric_no_sep _ LF (all_chars_fmt_g _ _)) by auto.
    reflexivity.
  - unfold tab. cbn [append]. rewrite split_field.
    + rewrite split_last; [reflexivity|].
      apply (numeric_no_sep _ TAB (all_chars_fmt_g _ _)); auto.
    + apply (numeric_no_sep _ TAB (all_chars_fmt_f _ _)); auto.
Qed.

Lemma data_no_LF (v c : list float) :
  Forall (fun l => has_char LF l = false) (data_lines v c).
Proof.
  unfold data_lines. apply Forall_forall. intros l Hl.
  apply in_map_iff in Hl as (vc & <- & _). apply data_line_fields.
Qed.

(** *** Joining and splitting *)


Lemma interleave_tokens (fmt : float -> string)
      (v c : list float) (tokens : list string) :
  List.length c = List.length v ->
  List.length tokens = (2 * List.length v)%nat ->
  (forall j, (j < List.length v)%nat ->
     nth_error v j = float_of_str (nth (2 * j) tokens "") /\
     nth_error c j = float_of_str (nth (2 * j + 1) tokens "")) ->
  (forall t x, In t tokens -> float_of_str t = Some x ->
               float_of_str (fmt x) = Some x) ->
  Forall2 (fun t t' => float_of_str t' = float_of_str t)
          tokens (map fmt (interleave v c)).
Proof.
  revert c tokens. induction v as [|x v IH]; intros c tokens Hc Ht Hj Hfmt.
  - destruct tokens; [constructor|discriminate].
  - destruct c as [|y c]; [discriminate|].
    destruct tokens as [|t0 [|t1 ts]]; try (simpl in Ht; lia).
    destruct (Hj 0%nat) as [H0 H1]; [simpl; lia|]. simpl in H0, H1.
    cbn [interleave map]. constructor; [|constructor].
    + rewrite <- H0. apply (Hfmt t0); [now left|auto].
    + rewrite <- H1. apply (Hfmt t1); [right; now left|auto].
    + apply IH.
      * simpl in Hc. lia.
      * simpl in Ht |- *. lia.
      * intros j Hlt. destruct (Hj (S j)) as [Hv' Hc']; [simpl; lia|].
        replace (2 * S j)%nat with (S (S (2 * j))) in * by lia.
        replace (S (S (2 * j)) + 1)%nat with (S (S (2 * j + 1))) in * by lia.
        simpl in Hv', Hc'. auto.
      * intros t z Hin. apply (Hfmt t). right; right; assumption.
Qed.

(** C6: selecting an instrument opens the session and sends nine commands,
    in this order: beep, measurement terminal, source function voltage,
    sweep start voltage, sweep stop voltage, sweep mode, element order
    voltage then current, sweep point count [N], trigger count [N]; it
    sends nothing else to the instrument and does not fail. *)
Theorem selectionChange_commands (name : string) (st : state) :
  raised (selectionChange name st) = None /\
  sent (effects_of (selectionChange name) st) =
    [ "syst:beep 440";
      "route:term front";
      "source:function:mode volt";
      "source:volt:start " ++ fmt_f 2 (minV (vars st));
      "source:volt:stop " ++ fmt_f 2 (maxV (vars st));
      "source:volt:mode sweep";
      "format:elements voltage, current";
      "source:sweep:points " ++ fmt_d (N (vars st));
      "trig:count " ++ fmt_d (N (vars st)) ]%string.
Proof.
  split; [reflexivity|].
  unfold effects_of. cbn -[fmt_f fmt_d skipn List.length].
  flatten_trace. reflexivity.
Qed.

(** C2: when the text has at least [2N] comma-separated fields and the
    first [2N] are numerals, [processData] returns, and stores two sequences
    of binary64 values of length [N] each: [voltage[j]] is the value of
    field [2j] and [current[j]] the value of field [2j+1]. *)
Theorem processData_parse (dataString : string) (st : state) (n : nat) :
  let data := split comma dataString in
  N (vars st) = Z.of_nat n ->
  (2 * n <= List.length data)%nat ->
  (forall k, (k < 2 * n)%nat -> float_of_str (nth k data "") <> None) ->
  exists st',
    processData dataString st = Done tt st' /\
    List.length (voltage (vars st')) = n /\
    List.length (current (vars st')) = n /\
    forall j, (j < n)%nat ->
      nth_error (voltage (vars st')) j = float_of_str (nth (2 * j) data "") /\
      nth_error (current (vars st')) j = float_of_str (nth (2 * j + 1) data "").
Proof.
  intros data HN Hlen Hnum.
  assert (Hfield : forall m, (m < 2 * n)%nat ->
                             exists x, field data (Z.of_nat m) = inr x).
  { intros m Hm. destruct (float_of_str (nth m data "")) as [x|] eqn:Hx.
    - exists x. apply field_inr. split; [lia|assumption].
    - exfalso. now apply (Hnum m Hm). }
  rewrite processData_cases. fold data. rewrite HN, range_even, range_odd.
  rewrite Nat2Z.id.
  destruct (comprehension_total (field data)
              (map (fun k => Z.of_nat (2 * k)) (seq 0 n))) as [v Hv].
  { intros j Hj. apply in_map_iff in Hj as (k & <- & Hk).
    apply in_seq in Hk. apply Hfield; lia. }
  destruct (comprehension_total (field data)
              (map (fun k => Z.of_nat (2 * k + 1)) (seq 0 n))) as [c Hc].
  { intros j Hj. apply in_map_iff in Hj as (k & <- & Hk).
    apply in_seq in Hk. apply Hfield; lia. }
  rewrite Hv, Hc. eexists; split; [reflexivity|]. cbn [vars after_effects
    put_current put_voltage set_current set_voltage voltage current].
  apply comprehension_seq in Hv as [Hlv Hkv].
  apply comprehension_seq in Hc as [Hlc Hkc].
  repeat split; try assumption.
  - destruct (Hkv j H) as (a & Ha & Hf). apply field_inr in Hf as [_ Hf].
    congruence.
  - destruct (Hkc j H) as (a & Ha & Hf). apply field_inr in Hf as [_ Hf].
    congruence.
Qed.

Lemma processData_parse_bench :
  exists st',
    processData sweep3 bench = Done tt st' /\
    List.length (voltage (vars st')) = 3%nat /\
    List.length (current (vars st')) = 3%nat /\
    forall j, (j < 3)%nat ->
      nth_error (voltage (vars st')) j
      = float_of_str (nth (2 * j) (split comma sweep3) "") /\
      nth_error (current (vars st')) j
      = float_of_str (nth (2 * j + 1) (split comma sweep3) "").
Proof.
  apply (processData_parse sweep3 bench 3).
  - reflexivity.
  - vm_compute. lia.
  - intros k Hk.
    do 6 (destruct k as [|k]; [vm_compute; discriminate|]). lia.
Defined.

(** C3, as the code has it: [processData] returns exactly when each of the
    first [2N] fields exists and is a numeral, and otherwise raises
    [IndexError] or [ValueError]; so a text with fewer than [2N] fields is
    always an error, fields after the first [2N] are never looked at, and
    with [N = 0] every text is accepted.  A stored sequence always has
    exactly [N] elements: each of [voltage] and [current] is either left as
    it was or replaced by a sequence of length [N], and an error leaves
    [current] as it was. *)
Theorem processData_errors (dataString : string) (st : state) :
  let data := split comma dataString in
  let n := Z.to_nat (N (vars st)) in
  let r := processData dataString st in
  (raised r = None <-> forall k, (k < 2 * n)%nat -> good data k) /\
  (raised r = None \/ raised r = Some IndexError \/ raised r = Some ValueError) /\
  ((List.length data < 2 * n)%nat -> raised r <> None) /\
  (voltage (vars (final r)) = voltage (vars st) \/
   List.length (voltage (vars (final r))) = n) /\
  (current (vars (final r)) = current (vars st) \/
   List.length (current (vars (final r))) = n) /\
  (raised r <> None -> current (vars (final r)) = current (vars st)).
Proof.
  intros data n r.
  assert (Hiff : raised r = None <-> forall k, (k < 2 * n)%nat -> good data k).
  { rewrite all_fields_split.
    rewrite <- (fields_ok_iff data (fun j => (2 * j)%nat) n).
    rewrite <- (fields_ok_iff data (fun j => (2 * j + 1)%nat) n).
    subst r. rewrite processData_cases. fold data.
    rewrite range_even, range_odd. fold n.
    destruct (comprehension (field data) (map _ (seq 0 n))) as [e|v].
    - simpl. split; [discriminate|]. intros [[l Hl] _]. discriminate.
    - destruct (comprehension (field data) (map _ (seq 0 n))) as [e|c].
      + simpl. split; [discriminate|]. intros [_ [l Hl]]. discriminate.
      + simpl. split; [|reflexivity]. intros _. split; eexists; reflexivity. }
  split; [exact Hiff|].
  split; [|split].
  - subst r. rewrite processData_cases. fold data.
    destruct (comprehension (field data) (range 0 _ 2)) as [e|v] eqn:Ev.
    + right. apply comprehension_error in Ev as [->| ->]; simpl; auto.
    + destruct (comprehension (field data) (range 1 _ 2)) as [e|c] eqn:Ec.
      * right. apply comprehension_error in Ec as [->| ->]; simpl; auto.
      * left. reflexivity.
  - intros Hshort Hok. pose proof (proj1 Hiff Hok) as Hall.
    destruct (Hall (List.length data) Hshort) as [Hlt _]. lia.
  - subst r. rewrite processData_cases. fold data.
    rewrite range_even, range_odd. fold n.
    destruct (comprehension (field data) (map _ (seq 0 n))) as [e|v] eqn:Ev.
    + simpl. repeat split; auto.
    + apply comprehension_length in Ev. rewrite length_map, length_seq in Ev.
      destruct (comprehension (field data) (map _ (seq 0 n))) as [e|c] eqn:Ec.
      * simpl. repeat split; auto.
      * apply comprehension_length in Ec. rewrite length_map, length_seq in Ec.
        simpl. repeat split; auto. intros H; congruence.
Qed.

(** C4, as the code has it: [processData] ends in one of three ways.  It
    returns with both sequences replaced by sequences of length [N]; or it
    raises while building the voltage sequence and both sequences are as
    before; or it raises while building the current sequence, and then
    [voltage] already holds the new sequence of length [N], field [2j] at
    index [j], while [current] is as before.  [current] is never replaced
    without [voltage]. *)
Theorem processData_update (dataString : string) (st : state) :
  let data := split comma dataString in
  let n := Z.to_nat (N (vars st)) in
  let r := processData dataString st in
  let st' := final r in
  (raised r = None /\
   List.length (voltage (vars st')) = n /\ List.length (current (vars st')) = n)
  \/
  (raised r <> None /\
   voltage (vars st') = voltage (vars st) /\ current (vars st') = current (vars st))
  \/
  (raised r <> None /\
   List.length (voltage (vars st')) = n /\
   (forall j, (j < n)%nat ->
      nth_error (voltage (vars st')) j = float_of_str (nth (2 * j) data "")) /\
   current (vars st') = current (vars st)).
Proof.
  intros data n r st'. subst st' r. rewrite processData_cases. fold data.
  rewrite range_even, range_odd. fold n.
  destruct (comprehension (field data)
              (map (fun k => Z.of_nat (2 * k)) (seq 0 n))) as [e|v] eqn:Ev.
  - right; left. proj_state. repeat split; auto. discriminate.
  - pose proof (comprehension_length _ _ _ Ev) as Hlv.
    rewrite length_map, length_seq in Hlv.
    destruct (comprehension (field data)
                (map (fun k => Z.of_nat (2 * k + 1)) (seq 0 n)))
      as [e|c] eqn:Ec.
    + right; right. proj_state. split; [discriminate|].
      split; [assumption|]. split; [|reflexivity].
      intros j Hj. apply comprehension_seq in Ev as [_ Hk].
      destruct (Hk j Hj) as (a & Ha & Hf). apply field_inr in Hf as [_ Hf].
      congruence.
    + left. apply comprehension_length in Ec.
      rewrite length_map, length_seq in Ec. proj_state. auto.
Qed.

Lemma processData_errors_short :
  raised (processData (ones 199) selected) <> None.
Proof.
  destruct (processData_errors (ones 199) selected) as (_ & _ & H & _).
  apply H. vm_compute. lia.
Defined.

(** C3 as stated fails: a reply with 201 fields where [2N = 200] are
    expected is not an error. *)
Lemma processData_accepts_long :
  Z.of_nat (List.length (split comma (ones 201))) <> 2 * N (vars selected) /\
  raised (processData (ones 201) selected) = None.
Proof. split; [vm_compute; discriminate|vm_compute; reflexivity]. Qed.

(** C4 as stated fails: a reply with 199 fields replaces [voltage] and then
    raises, with [current] as it was. *)
Lemma processData_half_update :
  let r := processData (ones 199) selected in
  raised r = Some IndexError /\
  voltage (vars (final r)) = repeat 1%float 100 /\
  voltage (vars (final r)) <> voltage (vars selected) /\
  current (vars (final r)) = current (vars selected).
Proof.
  repeat split; try (vm_compute; reflexivity).
  intros H. apply (f_equal (fun l => option_map Prim2SF (hd_error l))) in H.
  vm_compute in H. discriminate.
Qed.

(** C1, as the code has it: [processData] assigns none of the derived
    metrics, nor the area or the flux: after a sweep they are what they
    were before it, whatever was measured.  On the three-point example it
    stores the two parsed sequences, and the metrics keep their initial
    zeros. *)
Theorem processData_keeps_metrics (dataString : string) (st : state) :
  let st' := final (processData dataString st) in
  (metrics (vars st') = metrics (vars st) /\
   area (vars st') = area (vars st) /\ flux (vars st') = flux (vars st)) /\
  (let st3 := final (processData sweep3 bench) in
   voltage (vars st3) = [0.0; 0.5; 1.0]%float /\
   current (vars st3) = [0.010; 0.006; 0.000]%float /\
   metrics (vars st3)
   = (0.0%float, 0, 0.0%float, 0, 0, 0.0%float, 0.0%float, 0.0%float)).
Proof.
  intros st'. split.
  - subst st'. rewrite processData_cases.
    destruct (comprehension _ (range 0 _ 2)); [auto|].
    destruct (comprehension _ (range 1 _ 2)); auto.
  - vm_compute. auto.
Qed.

(** C1 as stated fails on its own example: with area 2.76 and flux 100, after
    processing the three points the zero-crossing voltage is not 1.0, the
    maximum current not 0.010, the maximum power not 0.003, the fill factor
    not 0.3 and the efficiency not 0.0000828 (they are all [0.0]; [eqb] is
    Python's [==] on floats).  It fails as well on the panel as it runs,
    with a hundred points: after a sweep in which every current is one
    ampere the maximum current is still [0.0]. *)
Lemma processData_example_metrics :
  let g := vars (final (processData sweep3 bench)) in
  area g = 2.76%float /\ flux g = 100.0%float /\
  PrimFloat.eqb (Vmax g) 1.0 = false /\
  PrimFloat.eqb (Imax g) 0.010 = false /\
  PrimFloat.eqb (IVmax g) 0.003 = false /\
  PrimFloat.eqb (fillFactor g) 0.3 = false /\
  PrimFloat.eqb (efficiency g) 0.0000828 = false /\
  current (vars swept) = repeat 1%float 100 /\
  PrimFloat.eqb (Imax (vars swept)) 1.0 = false.
Proof. vm_compute. repeat split. Qed.

(** C9: in every state the panel can reach, by selections, sweeps, stops,
    saves and edits of the parameters in any order, the eight derived metrics
    hold their initial zeros; the two result labels show the texts written
    at start-up from those zeros; and a save writes the four metric lines of
    the header with zeros, whatever was measured. *)
Theorem metrics_never_assigned (st : state) :
  reachable st ->
  metrics (vars st)
  = (0.0%float, 0, 0.0%float, 0, 0, 0.0%float, 0.0%float, 0.0%float) /\
  text (gui (env st)) ffOutput = "Fill Factor: 0.00  " /\
  text (gui (env st)) efOutput = "Efficiency: 0.00 " /\
  forall chosen, chosen <> "" ->
    raised (save_clicked chosen st) = None /\
    exists rest,
      effects_of (save_clicked chosen) st =
      SaveDialog chosen :: FileOpen chosen ::
      write_line chosen ("# Area = " ++ fmt_f 5 (area (vars st)) ++ " (units?)") ::
      write_line chosen ("# Flux = " ++ fmt_f 5 (flux (vars st)) ++ " (units?)") ::
      write_line chosen "# Max Current = 0.00000 mA" ::
      write_line chosen "# Max Voltage = 0.00000 V" ::
      write_line chosen "# Fill Factor = 0.000 " ::
      write_line chosen "# Efficiency = 0.000" :: rest.
Proof.
  intros Hr. destruct (reachable_inv st Hr) as (HN & Hv & Hc & Hm & Hff & Hef & _).
  repeat split; try assumption.
  - rewrite (save_clicked_done chosen st 100); auto.
  - pose proof (save_clicked_done chosen st 100 H HN Hv Hc) as Hs.
    rewrite (effects_after (save_clicked chosen) st st
               (save_effects chosen (vars st))); [|now rewrite Hs|reflexivity].
    unfold metrics in Hm. injection Hm as H1 _ _ _ _ H6 H7 H8.
    unfold save_effects, header_lines. rewrite H1, H6, H7, H8.
    cbn [map app]. eexists. reflexivity.
Qed.

Lemma metrics_never_assigned_swept :
  metrics (vars swept)
  = (0.0%float, 0, 0.0%float, 0, 0, 0.0%float, 0.0%float, 0.0%float) /\
  text (gui (env swept)) ffOutput = "Fill Factor: 0.00  " /\
  text (gui (env swept)) efOutput = "Efficiency: 0.00 " /\
  forall chosen, chosen <> "" ->
    raised (save_clicked chosen swept) = None /\
    exists rest,
      effects_of (save_clicked chosen) swept =
      SaveDialog chosen :: FileOpen chosen ::
      write_line chosen ("# Area = " ++ fmt_f 5 (area (vars swept)) ++ " (units?)") ::
      write_line chosen ("# Flux = " ++ fmt_f 5 (flux (vars swept)) ++ " (units?)") ::
      write_line chosen "# Max Current = 0.00000 mA" ::
      write_line chosen "# Max Voltage = 0.00000 V" ::
      write_line chosen "# Fill Factor = 0.000 " ::
      write_line chosen "# Efficiency = 0.000" :: rest.
Proof.
  apply (metrics_never_assigned swept).
  apply reach_event; [|reflexivity].
  apply reach_event; [apply reach_initial|reflexivity].
Defined.

(** C7, as the code has it: wherever the start button can be pressed, a
    sweep whose read brings a reply that [processData] accepts performs
    exactly this sequence: it disables the start button, enables the stop
    button, writes [output on], issues the one query [read?], writes
    [output off], processes the reply (the plot is redrawn, the save button
    enabled) and, last, enables the start button.  The globals it leaves are
    those [processData] computes from the reply.  At every point of the
    sequence after its first step and before its last the start button is
    disabled, so that no press of start can be taken there: two sweeps
    never overlap. *)
Theorem start_clicked_sequence (reply : string) (st : state) :
  reachable st -> enabled (StartClicked reply) st = true ->
  raised (processData reply st) = None ->
  let r := start_clicked reply st in
  let es := effects_of (start_clicked reply) st in
  let g' := vars (final r) in
  raised r = None /\
  g' = vars (final (processData reply st)) /\
  es = [ SetDisabled startButton true; SetDisabled stopButton false;
         VisaWrite "output on"; VisaQuery "read?" reply;
         VisaWrite "output off" ]
       ++ redraw (voltage g') (current g')
       ++ [ SetDisabled startButton false ] /\
  sent es = ["output on"; "read?"; "output off"] /\
  forall k, (1 <= k < List.length es)%nat ->
    disabled (ui_replay (firstn k es) (gui (env st))) startButton = true /\
    forall again, enabled (StartClicked again) (after_effects (firstn k es) st)
                  = false.
Proof.
  intros Hr Hen Hok r es g'.
  destruct (reachable_session st Hr) as [sm Hsm].
  { left. exact (enabled_source (StartClicked reply) st Hen). }
  subst g' es r. unfold effects_of.
  rewrite processData_cases in Hok |- *.
  rewrite (start_clicked_cases reply st sm Hsm).
  destruct (comprehension _ (range 0 _ 2)) as [e|v]; [discriminate|].
  destruct (comprehension _ (range 1 _ 2)) as [e|c]; [discriminate|].
  cbn [final raised]. rewrite skip_trace by reflexivity.
  split; [reflexivity|]. split; [reflexivity|]. split; [reflexivity|].
  split; [reflexivity|]. intros k [Hk Hlt].
  assert (Hoff : disabled
                   (ui_replay
                      (firstn k (opening reply ++ redraw v c
                                 ++ [SetDisabled startButton false]))
                      (gui (env st))) startButton = true).
  { unfold opening, redraw in Hlt |- *. simpl in Hlt.
    do 12 (destruct k as [|k]; [try lia; reflexivity|]). lia. }
  split; [exact Hoff|]. intros again. unfold enabled, after_effects.
  cbn [source env]. rewrite gui_fold. cbn [vars voltage current] in Hoff |- *.
  change (set_current c (set_voltage v (vars st))) with
    (vars (put_current c (put_voltage v st))) in Hoff.
  now rewrite Hoff.
Qed.

Lemma start_clicked_sequence_selected :
  let reply := ones 200 in
  let r := start_clicked reply selected in
  let es := effects_of (start_clicked reply) selected in
  let g' := vars (final r) in
  raised r = None /\
  g' = vars (final (processData reply selected)) /\
  es = [ SetDisabled startButton true; SetDisabled stopButton false;
         VisaWrite "output on"; VisaQuery "read?" reply;
         VisaWrite "output off" ]
       ++ redraw (voltage g') (current g')
       ++ [ SetDisabled startButton false ] /\
  sent es = ["output on"; "read?"; "output off"] /\
  forall k, (1 <= k < List.length es)%nat ->
    disabled (ui_replay (firstn k es) (gui (env selected))) startButton = true /\
    forall again,
      enabled (StartClicked again) (after_effects (firstn k es) selected)
      = false.
Proof.
  apply (start_clicked_sequence (ones 200) selected).
  - apply reach_event; [apply reach_initial|reflexivity].
  - reflexivity.
  - vm_compute. reflexivity.
Defined.

(** C7 as stated fails on a complete reply of 200 fields: the sequence is
    not the six steps of the claim.  Its second step enables the stop
    button, which was disabled before the sweep and is enabled after it. *)
Lemma start_clicked_enables_stop :
  let reply := ones 200 in
  let r := start_clicked reply selected in
  let es := effects_of (start_clicked reply) selected in
  enabled (StartClicked reply) selected = true /\
  raised r = None /\
  es <> Shape.six_steps reply (voltage (vars (final r))) (current (vars (final r))) /\
  nth_error es 1 = Some (SetDisabled stopButton false) /\
  disabled (gui (env selected)) stopButton = true /\
  disabled (gui (env (final r))) stopButton = false.
Proof.
  repeat split; try (vm_compute; reflexivity).
  intros H. apply (f_equal (fun l => List.length l)) in H.
  vm_compute in H. discriminate.
Qed.

(** C5, as the code has it: with a file name chosen and both arrays of
    length [N], a save returns and leaves a file of [7 + N] lines, each ended
    by LF.  The first seven begin with [#]: area and flux ([%0.5f]), max
    current and max voltage ([%0.5f]), fill factor and efficiency ([%0.3f]),
    and the column header, which is written as [# Voltage<TAB>Current].  The
    [N] lines after them are the data, in index order: the voltage as
    [%0.5f], one TAB, the current as [%0.5g]. *)
Theorem save_clicked_file (chosen : string) (st : state) (n : nat) :
  chosen <> "" ->
  N (vars st) = Z.of_nat n ->
  List.length (voltage (vars st)) = n ->
  List.length (current (vars st)) = n ->
  let g := vars st in
  let r := save_clicked chosen st in
  raised r = None /\
  exists content,
    file_content chosen (files (env (final r))) = Some content /\
    content = unlines (lines content) /\
    firstn 7 (lines content) =
      [ "# Area = " ++ fmt_f 5 (area g) ++ " (units?)";
        "# Flux = " ++ fmt_f 5 (flux g) ++ " (units?)";
        "# Max Current = " ++ fmt_f 5 (Imax g) ++ " mA";
        "# Max Voltage = " ++ fmt_f 5 (Vmax g) ++ " V";
        "# Fill Factor = " ++ fmt_f 3 (fillFactor g) ++ " ";
        "# Efficiency = " ++ fmt_f 3 (efficiency g);
        "# Voltage" ++ tab ++ "Current" ]%string /\
    Forall (fun l => String.prefix "#" l = true) (firstn 7 (lines content)) /\
    skipn 7 (lines content) = data_lines (voltage g) (current g) /\
    List.length (skipn 7 (lines content)) = n /\
    Forall2 (fun l vc => split TAB l = [fmt_f 5 (fst vc); fmt_g 5 (snd vc)])
            (skipn 7 (lines content)) (combine (voltage g) (current g)).
Proof.
  intros Hname HN Hv Hc g r. subst r.
  rewrite (save_clicked_done chosen st n Hname HN Hv Hc). cbn [raised final].
  split; [reflexivity|]. eexists. split; [apply saved_content|]. fold g.
  assert (L : lines (unlines (header_lines g ++ data_lines (voltage g) (current g)))
              = header_lines g ++ data_lines (voltage g) (current g)).
  { apply lines_unlines, Forall_app. split; [apply header_no_LF|apply data_no_LF]. }
  rewrite L. split; [reflexivity|].
  change (firstn 7 (header_lines g ++ data_lines (voltage g) (current g)))
    with (header_lines g).
  change (skipn 7 (header_lines g ++ data_lines (voltage g) (current g)))
    with (data_lines (voltage g) (current g)).
  split; [reflexivity|]. split; [repeat constructor|].
  split; [reflexivity|]. split.
  - unfold data_lines. rewrite length_map, length_combine. subst g. lia.
  - unfold data_lines. generalize (combine (voltage g) (current g)).
    intros l. induction l as [|vc l IH]; constructor; [|exact IH].
    apply data_line_fields.
Qed.

Lemma save_clicked_file_swept3 :
  let g := vars swept3 in
  let r := save_clicked "sweep.txt" swept3 in
  raised r = None /\
  exists content,
    file_content "sweep.txt" (files (env (final r))) = Some content /\
    content = unlines (lines content) /\
    firstn 7 (lines content) =
      [ "# Area = " ++ fmt_f 5 (area g) ++ " (units?)";
        "# Flux = " ++ fmt_f 5 (flux g) ++ " (units?)";
        "# Max Current = " ++ fmt_f 5 (Imax g) ++ " mA";
        "# Max Voltage = " ++ fmt_f 5 (Vmax g) ++ " V";
        "# Fill Factor = " ++ fmt_f 3 (fillFactor g) ++ " ";
        "# Efficiency = " ++ fmt_f 3 (efficiency g);
        "# Voltage" ++ tab ++ "Current" ]%string /\
    Forall (fun l => String.prefix "#" l = true) (firstn 7 (lines content)) /\
    skipn 7 (lines content) = data_lines (voltage g) (current g) /\
    List.length (skipn 7 (lines content)) = 3%nat /\
    Forall2 (fun l vc => split TAB l = [fmt_f 5 (fst vc); fmt_g 5 (snd vc)])
            (skipn 7 (lines content)) (combine (voltage g) (current g)).
Proof.
  apply (save_clicked_file "sweep.txt" swept3 3);
    [discriminate|reflexivity|reflexivity|reflexivity].
Defined.

(** C5 as stated fails: the row after the six metric lines is not
    [Voltage<TAB>Current]; it is [# Voltage<TAB>Current], and no line of
    the file is [Voltage<TAB>Current].  The file of the three-point example
    in full: *)
Lemma save_clicked_header_row :
  let r := save_clicked "sweep.txt" swept3 in
  let content := file_content "sweep.txt" (files (env (final r))) in
  option_map lines content =
    Some [ "# Area = 2.76000 (units?)";
           "# Flux = 100.00000 (units?)";
           "# Max Current = 0.00000 mA";
           "# Max Voltage = 0.00000 V";
           "# Fill Factor = 0.000 ";
           "# Efficiency = 0.000";
           "# Voltage" ++ tab ++ "Current";
           "0.00000" ++ tab ++ "0.01";
           "0.50000" ++ tab ++ "0.006";
           "1.00000" ++ tab ++ "0" ]%string /\
  option_map (fun t => nth 6 (lines t) "") content
  <> Some ("Voltage" ++ tab ++ "Current")%string /\
  option_map (fun t => existsb (String.eqb ("Voltage" ++ tab ++ "Current"))
                               (lines t)) content = Some false.
Proof.
  vm_compute. repeat split. discriminate.
Qed.






End Props.

(** ** More of the panel *)

Module More.
Import Text PyFloat App Obs Shape Props.
Local Open Scope list_scope.
Local Open Scope py_scope.

(** *** The closed form *)

Lemma gate_session (e : event) (st : state) :
  gate_inv st -> enabled e st = true ->
  match e with
  | SelectionChanged _ => True
  | _ => exists sm, SM (vars st) = Some sm
  end.
Proof.
  intros [_ Hg] Hen. pose proof (enabled_source e st Hen) as Hsrc.
  destruct e; cbn [source] in Hsrc; try exact I;
    (destruct (SM (vars st)) as [sm|]; [eauto|]);
    cbn [forallb entries] in Hg; rewrite Hsrc in Hg;
    cbn in Hg; rewrite ?andb_false_r in Hg; discriminate.
Qed.

Lemma handler_summary (e : event) (st : state) :
  panel_inv st -> gate_inv st -> enabled e st = true ->
  handler e st = pack (summary e (vars st)) st.
Proof.
  intros Hinv Hgate Hen. pose proof (gate_session e st Hgate Hen) as Hsm.
  destruct Hinv as (HN & Hv & Hc & _).
  destruct st as [g w]. cbn [vars env] in *.
  destruct e as [name|port|reply| |chosen|txt|txt|txt|txt];
    cbn [handler summary].
  - reflexivity.
  - destruct Hsm as [sm Hsm]. unfold portSet, SM_write, bind, read.
    cbn [vars]. rewrite Hsm. reflexivity.
  - destruct Hsm as [sm Hsm].
    rewrite (start_clicked_cases reply {| vars := g; env := w |} sm Hsm).
    cbn [vars].
    unfold sweep_outcome.
    destruct (comprehension _ (range 0 _ 2)); [reflexivity|].
    destruct (comprehension _ (range 1 _ 2)); reflexivity.
  - destruct Hsm as [sm Hsm]. rewrite stop_clicked_cases. cbn [vars].
    rewrite Hsm. reflexivity.
  - destruct chosen as [|a chosen]; [reflexivity|].
    rewrite (save_clicked_done (String a chosen) {| vars := g; env := w |} 100);
      auto. discriminate.
  - unfold areaSet, edit_outcome, bind, lift, py_float.
    destruct (float_of_str txt); reflexivity.
  - unfold fluxSet, edit_outcome, bind, lift, py_float.
    destruct (float_of_str txt); reflexivity.
  - destruct Hsm as [sm Hsm].
    unfold minVset, edit_outcome, SM_write, bind, lift, py_float, read, assign.
    destruct (float_of_str txt); [|reflexivity].
    cbn [ret vars SM set_minV]. rewrite Hsm. reflexivity.
  - destruct Hsm as [sm Hsm].
    unfold maxVset, edit_outcome, SM_write, bind, lift, py_float, read, assign.
    destruct (float_of_str txt); [|reflexivity].
    cbn [ret vars SM set_maxV]. rewrite Hsm. reflexivity.
Qed.

Lemma step_summary (e : event) (st : state) :
  panel_inv st -> gate_inv st -> enabled e st = true ->
  step e st = after_effects (snd (summary e (vars st)))
                            (put_vars (snd (fst (summary e (vars st)))) st).
Proof.
  intros Hinv Hgate Hen. unfold step.
  rewrite (handler_summary e st Hinv Hgate Hen).
  destruct (summary e (vars st)) as [[[x|] g'] es]; reflexivity.
Qed.

(** *** The widgets after the effects of a handler *)

Lemma ui_replay_app (es fs : list effect) (u : ui) :
  ui_replay (es ++ fs) u = ui_replay fs (ui_replay es u).
Proof. unfold ui_replay. apply fold_left_app. Qed.

Lemma ui_replay_writes (file : string) (ls : list string) (u : ui) :
  ui_replay (map (write_line file) ls) u = u.
Proof. induction ls as [|l ls IH]; [reflexivity|exact IH]. Qed.

Lemma ui_replay_save (chosen : string) (g : globals) (u : ui) :
  ui_replay (save_effects chosen g) u
  = ui_apply (SetDisabled saveButton true)
             (ui_apply (SetText saveButton "Data Saved") u).
Proof.
  unfold save_effects.
  change (ui_replay (SaveDialog chosen :: FileOpen chosen :: ?l) u)
    with (ui_replay l u).
  rewrite ui_replay_app, ui_replay_writes. reflexivity.
Qed.

Lemma gui_after (es : list effect) (g' : globals) (st : state) :
  gui (env (after_effects es (put_vars g' st))) = ui_replay es (gui (env st)).
Proof. unfold after_effects, put_vars. cbn [env]. apply gui_fold. Qed.

Ltac gui_norm :=
  rewrite ?gui_after, ?ui_replay_save;
  unfold ui_replay, opening, redraw, select_effects;
  cbn [List.app fold_left ui_apply disabled text widget_eqb forallb entries].

(** *** The gate on the controls *)

Lemma gate_initial : gate_inv initial.
Proof. split; reflexivity. Qed.

Lemma gate_step (e : event) (st : state) :
  panel_inv st -> gate_inv st -> enabled e st = true -> gate_inv (step e st).
Proof.
  intros Hinv Hgate Hen.
  rewrite (step_summary e st Hinv Hgate Hen).
  pose proof (gate_session e st Hgate Hen) as Hsm.
  destruct Hgate as [Hsel Hg]. unfold gate_inv.
  destruct e as [name|port|reply| |chosen|txt|txt|txt|txt];
    cbn [summary] in *;
    try (match type of Hsm with
         | ex _ => destruct Hsm as [sm Hsm]
         end; rewrite Hsm in Hg;
         destruct Hg as (Hent & Hss & Hto); cbn [forallb entries] in Hent).
  - cbn [fst snd]. gui_norm. cbn. auto.
  - cbn [fst snd]. gui_norm. cbn [after_effects put_vars vars].
    rewrite Hsm. auto.
  - unfold sweep_outcome.
    destruct (comprehension _ (range 0 _ 2)) as [x|v]; cbn [fst snd].
    + gui_norm. cbn [after_effects put_vars vars]. rewrite Hsm. auto.
    + destruct (comprehension _ (range 1 _ 2)) as [x|c]; cbn [fst snd];
        gui_norm; cbn [after_effects put_vars vars SM set_voltage set_current];
        rewrite Hsm; auto.
  - cbn [fst snd]. gui_norm. cbn [after_effects put_vars vars].
    rewrite Hsm. auto.
  - destruct chosen as [|a chosen]; cbn [fst snd]; gui_norm;
      cbn [after_effects put_vars vars]; rewrite Hsm; auto.
  - unfold edit_outcome. destruct (float_of_str txt); cbn [fst snd];
      gui_norm; cbn [after_effects put_vars vars SM set_area];
      rewrite Hsm; auto.
  - unfold edit_outcome. destruct (float_of_str txt); cbn [fst snd];
      gui_norm; cbn [after_effects put_vars vars SM set_flux];
      rewrite Hsm; auto.
  - unfold edit_outcome. destruct (float_of_str txt); cbn [fst snd];
      gui_norm; cbn [after_effects put_vars vars SM set_minV];
      rewrite Hsm; auto.
  - unfold edit_outcome. destruct (float_of_str txt); cbn [fst snd];
      gui_norm; cbn [after_effects put_vars vars SM set_maxV];
      rewrite Hsm; auto.
Qed.

Lemma reachable_gate (st : state) : reachable st -> gate_inv st.
Proof.
  induction 1 as [|e st Hr IH Hen]; [apply gate_initial|].
  apply gate_step; auto using reachable_inv.
Qed.

(** *** What the handlers raise, and what they never do *)



(** X2: in every state the panel can reach the point count is 100 and both
    result arrays hold exactly 100 values, also after a sweep that failed
    half way. *)
Theorem arrays_always_full (st : state) :
  reachable st ->
  N (vars st) = 100 /\
  List.length (voltage (vars st)) = 100%nat /\
  List.length (current (vars st)) = 100%nat.
Proof.
  intros Hr. destruct (reachable_inv st Hr) as (HN & Hv & Hc & _). auto.
Qed.

Lemma arrays_always_full_half :
  let st := step (StartClicked (ones 199)) selected in
  N (vars st) = 100 /\
  List.length (voltage (vars st)) = 100%nat /\
  List.length (current (vars st)) = 100%nat.
Proof.
  apply (arrays_always_full (step (StartClicked (ones 199)) selected)).
  apply reach_event; [|reflexivity].
  apply reach_event; [apply reach_initial|reflexivity].
Defined.

(** X3: the controls follow the session.  In every state the panel can
    reach the instrument menu is enabled.  While no session is open the
    port menu, the four entries and the start, stop and save buttons are all
    disabled.  Once one is open its timeout is 30000 ms, the port menu and
    the entries are enabled, and at least one of the start and stop buttons
    is. *)
Theorem controls_follow_session (st : state) :
  reachable st ->
  let off := disabled (gui (env st)) in
  off selectMenu = false /\
  (SM (vars st) = None ->
   forall w, In w [portMenu; startVentry; stopVentry; areaEntry; fluxEntry;
                   startButton; stopButton; saveButton] -> off w = true) /\
  (forall sm, SM (vars st) = Some sm ->
   timeout sm = 30000 /\
   (forall w, In w [portMenu; startVentry; stopVentry; areaEntry; fluxEntry] ->
              off w = false) /\
   (off startButton = false \/ off stopButton = false)).
Proof.
  intros Hr off. destruct (reachable_gate st Hr) as [Hsel Hg]. fold off in Hg.
  split; [exact Hsel|]. split.
  - intros Hnone w Hw. rewrite Hnone in Hg.
    cbn [forallb entries] in Hg.
    repeat (apply andb_true_iff in Hg as [? Hg]).
    cbn [In] in Hw.
    repeat (destruct Hw as [<-|Hw]; [assumption|]). contradiction.
  - intros sm Hsm. rewrite Hsm in Hg. destruct Hg as (Hent & Hss & Hto).
    split; [exact Hto|]. split; [|exact Hss].
    intros w Hw. cbn [forallb entries] in Hent.
    repeat (apply andb_true_iff in Hent as [? Hent]).
    cbn [In] in Hw.
    repeat (destruct Hw as [<-|Hw]; [now apply negb_true_iff|]).
    contradiction.
Qed.

Lemma controls_follow_session_swept :
  let off := disabled (gui (env swept)) in
  off selectMenu = false /\
  (SM (vars swept) = None ->
   forall w, In w [portMenu; startVentry; stopVentry; areaEntry; fluxEntry;
                   startButton; stopButton; saveButton] -> off w = true) /\
  (forall sm, SM (vars swept) = Some sm ->
   timeout sm = 30000 /\
   (forall w, In w [portMenu; startVentry; stopVentry; areaEntry; fluxEntry] ->
              off w = false) /\
   (off startButton = false \/ off stopButton = false)).
Proof.
  apply (controls_follow_session swept).
  apply reach_event; [|reflexivity].
  apply reach_event; [apply reach_initial|reflexivity].
Defined.

(** *** The settings the instrument was given *)

Lemma sent_app (es fs : list effect) : sent (es ++ fs) = sent es ++ sent fs.
Proof.
  induction es as [|e es IH]; [reflexivity|].
  destruct e; cbn [List.app sent]; rewrite ?IH; reflexivity.
Qed.

Lemma last_with_app (p : string) (l r : list string) :
  last_with p (l ++ r) =
  match last_with p r with
  | Some x => Some x
  | None => last_with p l
  end.
Proof.
  induction l as [|c l IH]; cbn [List.app last_with].
  - now destruct (last_with p r).
  - rewrite IH. now destruct (last_with p r).
Qed.

Lemma trace_after (es : list effect) (g' : globals) (st : state) :
  trace (env (after_effects es (put_vars g' st))) = trace (env st) ++ es.
Proof. unfold after_effects, put_vars. cbn [env]. apply trace_fold. Qed.

Lemma configured_after (p : string) (es : list effect) (g' : globals)
      (st : state) :
  configured p (after_effects es (put_vars g' st)) =
  match last_with p (sent es) with
  | Some x => Some x
  | None => configured p st
  end.
Proof. unfold configured. now rewrite trace_after, sent_app, last_with_app. Qed.

Lemma sent_writes (file : string) (ls : list string) :
  sent (map (write_line file) ls) = [].
Proof. induction ls as [|l ls IH]; [reflexivity|exact IH]. Qed.

Lemma sent_save (chosen : string) (g : globals) :
  sent (save_effects chosen g) = [].
Proof.
  unfold save_effects. cbn [sent]. now rewrite sent_app, sent_writes.
Qed.

Lemma sync_initial : sync_inv initial.
Proof. intros H. now contradiction H. Qed.

Ltac sync_norm :=
  rewrite ?configured_after, ?sent_save;
  unfold opening, redraw, select_effects;
  cbn [List.app sent last_with starts_with append Ascii.eqb Bool.eqb andb].

Lemma sync_step (e : event) (st : state) :
  panel_inv st -> gate_inv st -> sync_inv st -> enabled e st = true ->
  sync_inv (step e st).
Proof.
  intros Hinv Hgate Hsync Hen.
  rewrite (step_summary e st Hinv Hgate Hen).
  pose proof (gate_session e st Hgate Hen) as Hsm.
  destruct Hinv as (HN & _). unfold sync_inv in *.
  destruct e as [name|port|reply| |chosen|txt|txt|txt|txt];
    cbn [summary] in *;
    try (match type of Hsm with
         | ex _ => destruct Hsm as [sm Hsm]
         end;
         assert (Hopen : SM (vars st) <> None) by congruence;
         destruct (Hsync Hopen) as (S1 & S2 & S3 & S4 & S5 & S6 & S7 & S8)).
  - cbn [fst snd]. intros _. cbn [after_effects put_vars vars minV maxV set_SM].
    sync_norm. rewrite HN. change (fmt_d 100) with "100".
    repeat split. left. reflexivity.
  - cbn [fst snd]. intros _. cbn [after_effects put_vars vars].
    sync_norm. repeat split; try assumption.
    right. exists port. split; [|reflexivity].
    unfold enabled in Hen. apply andb_true_iff in Hen as [_ Hen].
    apply existsb_exists in Hen as (q & Hq & Heq).
    apply String.eqb_eq in Heq. now subst q.
  - unfold sweep_outcome.
    destruct (comprehension _ (range 0 _ 2)) as [x|v]; cbn [fst snd].
    + intros _. cbn [after_effects put_vars vars]. sync_norm.
      repeat split; assumption.
    + destruct (comprehension _ (range 1 _ 2)) as [x|c]; cbn [fst snd];
        intros _;
        cbn [after_effects put_vars vars minV maxV set_voltage set_current];
        sync_norm; repeat split; assumption.
  - cbn [fst snd]. intros _. cbn [after_effects put_vars vars]. sync_norm.
    repeat split; assumption.
  - destruct chosen as [|a chosen]; cbn [fst snd]; intros _;
      cbn [after_effects put_vars vars]; sync_norm; repeat split; assumption.
  - unfold edit_outcome. destruct (float_of_str txt); cbn [fst snd];
      intros _; cbn [after_effects put_vars vars minV maxV set_area];
      sync_norm; repeat split; assumption.
  - unfold edit_outcome. destruct (float_of_str txt); cbn [fst snd];
      intros _; cbn [after_effects put_vars vars minV maxV set_flux];
      sync_norm; repeat split; assumption.
  - unfold edit_outcome. destruct (float_of_str txt); cbn [fst snd];
      intros _; cbn [after_effects put_vars vars minV maxV set_minV];
      sync_norm; repeat split; assumption.
  - unfold edit_outcome. destruct (float_of_str txt); cbn [fst snd];
      intros _; cbn [after_effects put_vars vars minV maxV set_maxV];
      sync_norm; repeat split; assumption.
Qed.

(** X4: from the selection on, in every state the panel can reach, the
    last setting sent to the instrument under each command name is the one
    the globals describe: source function voltage, start and stop voltage
    [minV] and [maxV] to two decimals, sweep mode, elements voltage then
    current, 100 sweep points and 100 triggers; the terminal is the one of
    the selection ([front]) or the port picked last. *)
Theorem instrument_in_sync (st : state) :
  reachable st -> SM (vars st) <> None ->
  configured "source:function:mode " st = Some "source:function:mode volt" /\
  configured "source:volt:start " st
    = Some ("source:volt:start " ++ fmt_f 2 (minV (vars st)))%string /\
  configured "source:volt:stop " st
    = Some ("source:volt:stop " ++ fmt_f 2 (maxV (vars st)))%string /\
  configured "source:volt:mode " st = Some "source:volt:mode sweep" /\
  configured "format:elements " st = Some "format:elements voltage, current" /\
  configured "source:sweep:points " st = Some "source:sweep:points 100" /\
  configured "trig:count " st = Some "trig:count 100" /\
  (configured "route:term " st = Some "route:term front" \/
   exists port, In port ports /\
     configured "route:term " st = Some ("route:term " ++ port)%string).
Proof.
  intros Hr. change (sync_inv st).
  induction Hr as [|e st Hr IH Hen]; [apply sync_initial|].
  apply sync_step; auto using reachable_inv, reachable_gate.
Qed.

Lemma instrument_in_sync_retuned :
  configured "source:function:mode " retuned = Some "source:function:mode volt" /\
  configured "source:volt:start " retuned
    = Some ("source:volt:start " ++ fmt_f 2 (minV (vars retuned)))%string /\
  configured "source:volt:stop " retuned
    = Some ("source:volt:stop " ++ fmt_f 2 (maxV (vars retuned)))%string /\
  configured "source:volt:mode " retuned = Some "source:volt:mode sweep" /\
  configured "format:elements " retuned
    = Some "format:elements voltage, current" /\
  configured "source:sweep:points " retuned = Some "source:sweep:points 100" /\
  configured "trig:count " retuned = Some "trig:count 100" /\
  (configured "route:term " retuned = Some "route:term front" \/
   exists port, In port ports /\
     configured "route:term " retuned = Some ("route:term " ++ port)%string).
Proof.
  apply (instrument_in_sync retuned).
  - apply reach_event; [|reflexivity].
    apply reach_event; [|reflexivity].
    apply reach_event; [apply reach_initial|reflexivity].
  - discriminate.
Defined.

(** *** The plot and the files *)

(** X5: when [processData] returns, the axes hold one series only, the new
    voltages against the new currents times 1000, in red dots, with both
    labels set; the screen shows those axes; the save button is enabled and
    no file is touched.  When it raises, plot, screen, widgets and files
    are all as before. *)
Theorem processData_plot (reply : string) (st : state) :
  let r := processData reply st in
  let st' := final r in
  match raised r with
  | None =>
      axes (env st') = plot_of (voltage (vars st')) (current (vars st')) /\
      canvas (env st') = axes (env st') /\
      disabled (gui (env st')) saveButton = false /\
      files (env st') = files (env st) /\
      effects_of (processData reply) st
      = redraw (voltage (vars st')) (current (vars st'))
  | Some _ => env st' = env st
  end.
Proof.
  intros r st'. subst st' r. unfold effects_of. rewrite processData_cases.
  destruct (comprehension _ (range 0 _ 2)) as [x|v]; [reflexivity|].
  destruct (comprehension _ (range 1 _ 2)) as [x|c]; [reflexivity|].
  cbn [raised final]. rewrite skip_trace by reflexivity.
  repeat split.
Qed.

Lemma fold_writes_plot (file : string) (ls : list string) (w : world) :
  let w' := fold_left (fun w e => world_apply e w) (map (write_line file) ls) w in
  axes w' = axes w /\ canvas w' = canvas w.
Proof.
  revert w. induction ls as [|l ls IH]; intros w; [split; reflexivity|].
  cbn [map fold_left]. destruct (IH (world_apply (write_line file l) w)) as [H1 H2].
  cbn zeta in *. rewrite H1, H2. split; reflexivity.
Qed.

Lemma plot_after_save (chosen : string) (g g' : globals) (st : state) :
  let st' := after_effects (save_effects chosen g) (put_vars g' st) in
  axes (env st') = axes (env st) /\ canvas (env st') = canvas (env st).
Proof.
  unfold after_effects, put_vars, save_effects. cbn [env fold_left].
  rewrite fold_left_app. cbn [fold_left world_apply axes canvas plot_apply].
  destruct (fold_writes_plot chosen
              (header_lines g ++ data_lines (voltage g) (current g))
              (world_apply (FileOpen chosen)
                 (world_apply (SaveDialog chosen) (env st)))) as [H1 H2].
  cbn zeta in *. rewrite H1, H2. split; reflexivity.
Qed.

Lemma files_after_save (chosen : string) (g g' : globals) (st : state) :
  files (env (after_effects (save_effects chosen g) (put_vars g' st)))
  = (chosen, unlines (header_lines g ++ data_lines (voltage g) (current g)))
      :: files (env st).
Proof.
  unfold after_effects, put_vars, save_effects. cbn [env]. rewrite files_fold.
  cbn [fold_left files_apply]. rewrite fold_left_app, writes_append.
  reflexivity.
Qed.

Lemma plot_initial : plot_inv initial.
Proof. split; [reflexivity|]. left. repeat split. Qed.

Ltac world_norm :=
  unfold after_effects, put_vars, opening, redraw, select_effects;
  cbn [env vars List.app fold_left world_apply axes canvas files gui
       plot_apply files_apply ui_apply disabled text widget_eqb
       current set_SM set_voltage set_current set_area set_flux
       set_minV set_maxV].

Lemma plot_step (e : event) (st : state) :
  panel_inv st -> gate_inv st -> plot_inv st -> enabled e st = true ->
  plot_inv (step e st).
Proof.
  intros Hinv Hgate [Hcan Hplot] Hen.
  rewrite (step_summary e st Hinv Hgate Hen).
  pose proof (enabled_source e st Hen) as Hsrc.
  destruct Hinv as (HN & _). unfold plot_inv.
  destruct e as [name|port|reply| |chosen|txt|txt|txt|txt]; cbn [summary source] in *.
  - cbn [fst snd]. world_norm. split; [exact Hcan|exact Hplot].
  - cbn [fst snd]. world_norm. split; [exact Hcan|exact Hplot].
  - unfold sweep_outcome. rewrite HN, range_even, range_odd.
    change (Z.to_nat 100) with 100%nat.
    destruct (comprehension _ (map (fun k => Z.of_nat (2 * k)) (seq 0 100)))
      as [x|v] eqn:Ev; cbn [fst snd].
    + world_norm. split; [exact Hcan|exact Hplot].
    + apply comprehension_length in Ev. rewrite length_map, length_seq in Ev.
      destruct (comprehension _
                  (map (fun k => Z.of_nat (2 * k + 1)) (seq 0 100)))
        as [x|c]; cbn [fst snd].
      * world_norm. split; [exact Hcan|exact Hplot].
      * world_norm. split; [reflexivity|]. right. exists v. split; auto.
  - cbn [fst snd]. world_norm. split; [exact Hcan|exact Hplot].
  - destruct chosen as [|a chosen]; cbn [fst snd].
    + world_norm. split; [exact Hcan|exact Hplot].
    + destruct (plot_after_save (String a chosen) (vars st) (vars st) st)
        as [Ha Hc].
      cbn zeta in *. rewrite Ha, Hc. split; [exact Hcan|].
      destruct Hplot as [(_ & _ & Hoff & _)|Hright]; [congruence|].
      right. exact Hright.
  - unfold edit_outcome. destruct (float_of_str txt); cbn [fst snd];
      world_norm; (split; [exact Hcan|exact Hplot]).
  - unfold edit_outcome. destruct (float_of_str txt); cbn [fst snd];
      world_norm; (split; [exact Hcan|exact Hplot]).
  - unfold edit_outcome. destruct (float_of_str txt); cbn [fst snd];
      world_norm; (split; [exact Hcan|exact Hplot]).
  - unfold edit_outcome. destruct (float_of_str txt); cbn [fst snd];
      world_norm; (split; [exact Hcan|exact Hplot]).
Qed.

(** X6: in every state the panel can reach the screen shows what the axes
    hold.  Until the first sweep has completed nothing is plotted, the
    stored currents are the initial zeros, the save button is disabled and
    reads [Save Data], and no file has been written.  From then on the axes
    hold exactly one series of 100 points, and its currents are the stored
    currents times 1000. *)
Theorem plot_shows_current (st : state) :
  reachable st ->
  canvas (env st) = axes (env st) /\
  ((axes (env st) = empty_plot /\
    current (vars st) = np_zeros 100 /\
    disabled (gui (env st)) saveButton = true /\
    text (gui (env st)) saveButton = "Save Data" /\
    files (env st) = [])
   \/
   (exists v, List.length v = 100%nat /\
              axes (env st) = plot_of v (current (vars st)))).
Proof.
  intros Hr. change (plot_inv st).
  induction Hr as [|e st Hr IH Hen]; [apply plot_initial|].
  apply plot_step; auto using reachable_inv, reachable_gate.
Qed.

Lemma plot_shows_current_half :
  let st := step (StartClicked (ones 199)) swept in
  canvas (env st) = axes (env st) /\
  ((axes (env st) = empty_plot /\
    current (vars st) = np_zeros 100 /\
    disabled (gui (env st)) saveButton = true /\
    text (gui (env st)) saveButton = "Save Data" /\
    files (env st) = [])
   \/
   (exists v, List.length v = 100%nat /\
              axes (env st) = plot_of v (current (vars st)))).
Proof.
  apply (plot_shows_current (step (StartClicked (ones 199)) swept)).
  apply reach_event; [|reflexivity].
  apply reach_event; [|reflexivity].
  apply reach_event; [apply reach_initial|reflexivity].
Defined.

(** X7: a save, wherever the save button can be pressed, changes no global,
    sends nothing to the instrument and leaves plot and screen alone,
    whether it returns or raises.  When it returns, the file text is under
    the chosen name in front of the files there were, every other file
    reads as before, and the save button is disabled.  When [open] raises
    [FileNotFoundError], as it does on the empty name of a cancelled
    dialog, files and save button are as before.  No claim is made on
    which other names can be opened. *)
Theorem save_clicked_touches (chosen : string) (st : state) :
  reachable st -> enabled (SaveClicked chosen) st = true ->
  let r := save_clicked chosen st in
  let st' := final r in
  let g := vars st in
  vars st' = g /\
  axes (env st') = axes (env st) /\
  canvas (env st') = canvas (env st) /\
  sent (effects_of (save_clicked chosen) st) = [] /\
  (raised r = None ->
     files (env st')
     = (chosen, unlines (header_lines g ++ data_lines (voltage g) (current g)))
         :: files (env st) /\
     (forall other, other <> chosen ->
        file_content other (files (env st'))
        = file_content other (files (env st))) /\
     disabled (gui (env st')) saveButton = true) /\
  (raised r = Some FileNotFoundError ->
     files (env st') = files (env st) /\
     disabled (gui (env st')) saveButton = false) /\
  (chosen = "" -> raised r = Some FileNotFoundError).
Proof.
  intros Hr Hen r st' g.
  pose proof (reachable_inv st Hr) as Hinv.
  pose proof (reachable_gate st Hr) as Hgate.
  pose proof (enabled_source _ st Hen) as Hsrc. cbn [source] in Hsrc.
  pose proof (handler_summary _ st Hinv Hgate Hen) as Hh.
  cbn [handler summary] in Hh.
  subst st' r. destruct chosen as [|a chosen]; cbn [fst snd pack] in *.
  - rewrite (effects_after (save_clicked "") st (put_vars (vars st) st)
               [SaveDialog ""]); [|now rewrite Hh|reflexivity].
    rewrite Hh. repeat split; try discriminate. exact Hsrc.
  - rewrite (effects_after (save_clicked (String a chosen)) st
               (put_vars (vars st) st) (save_effects (String a chosen) (vars st)));
      [|now rewrite Hh|reflexivity].
    rewrite Hh. cbn [final raised].
    rewrite sent_save, files_after_save, gui_after, ui_replay_save.
    destruct (plot_after_save (String a chosen) (vars st) (vars st) st)
      as [Ha Hc]. cbn zeta in *. rewrite Ha, Hc.
    repeat split; try discriminate.
    intros other Hother. cbn [file_content].
    destruct (String.eqb_spec (String a chosen) other); congruence.
Qed.

(** With [open_w] as modelled, where only the empty name cannot be opened,
    a save under any other name returns. *)
Lemma save_returns (chosen : string) (st : state) :
  reachable st -> enabled (SaveClicked chosen) st = true -> chosen <> "" ->
  raised (save_clicked chosen st) = None.
Proof.
  intros Hr Hen Hne.
  pose proof (handler_summary _ st (reachable_inv st Hr) (reachable_gate st Hr) Hen)
    as Hh.
  cbn [handler summary] in Hh. rewrite Hh.
  destruct chosen; [congruence|reflexivity].
Qed.

Lemma save_clicked_touches_swept :
  let chosen := "sweep.txt" in
  let st' := final (save_clicked chosen swept) in
  let g := vars swept in
  vars st' = g /\
  sent (effects_of (save_clicked chosen) swept) = [] /\
  files (env st')
  = (chosen, unlines (header_lines g ++ data_lines (voltage g) (current g)))
      :: files (env swept) /\
  disabled (gui (env st')) saveButton = true.
Proof.
  assert (Hr : reachable swept).
  { apply reach_event; [|reflexivity].
    apply reach_event; [apply reach_initial|reflexivity]. }
  assert (Hen : enabled (SaveClicked "sweep.txt") swept = true) by reflexivity.
  destruct (save_clicked_touches "sweep.txt" swept Hr Hen)
    as (Hv & _ & _ & Hs & Hdone & _).
  destruct Hdone as (Hf & _ & Hd).
  - apply (save_returns "sweep.txt" swept Hr Hen). discriminate.
  - exact (conj Hv (conj Hs (conj Hf Hd))).
Defined.

(** X8: the text of the save button is [Save Data] or [Data Saved], and
    only a completed save changes it: after any other handler, and after a
    cancelled save, it is what it was.  So once a file has been saved the
    button reads [Data Saved] for good, also when a later sweep has enabled
    it again. *)
Theorem save_label (e : event) (st : state) :
  reachable st -> enabled e st = true ->
  let label := fun s => text (gui (env s)) saveButton in
  (label st = "Save Data" \/ label st = "Data Saved") /\
  label (step e st) =
    match e with
    | SaveClicked (String _ _) => "Data Saved"
    | _ => label st
    end /\
  (label st = "Data Saved" -> label (step e st) = "Data Saved").
Proof.
  intros Hr Hen label.
  pose proof (reachable_inv st Hr) as Hinv.
  pose proof (reachable_gate st Hr) as Hgate.
  assert (Hstep : label (step e st) =
                  match e with
                  | SaveClicked (String _ _) => "Data Saved"
                  | _ => label st
                  end).
  { subst label. cbv beta. rewrite (step_summary e st Hinv Hgate Hen).
    destruct e as [name|port|reply| |chosen|txt|txt|txt|txt]; cbn [summary];
      try (unfold edit_outcome; destruct (float_of_str txt));
      try (unfold sweep_outcome;
           destruct (comprehension _ (range 0 _ 2));
           [|destruct (comprehension _ (range 1 _ 2))]);
      try (destruct chosen);
      cbn [fst snd]; gui_norm; reflexivity. }
  split; [|split; [exact Hstep|]].
  - clear Hstep Hen e Hinv Hgate.
    induction Hr as [|e st Hr IH Hen]; [left; reflexivity|].
    pose proof (reachable_inv st Hr) as Hinv.
    pose proof (reachable_gate st Hr) as Hgate.
    subst label. cbv beta in *. rewrite (step_summary e st Hinv Hgate Hen).
    destruct e as [name|port|reply| |chosen|txt|txt|txt|txt]; cbn [summary];
      try (unfold edit_outcome; destruct (float_of_str txt));
      try (unfold sweep_outcome;
           destruct (comprehension _ (range 0 _ 2));
           [|destruct (comprehension _ (range 1 _ 2))]);
      try (destruct chosen);
      cbn [fst snd]; gui_norm; auto.
  - intros Hl. rewrite Hstep. destruct e; auto. destruct chosen; auto.
Qed.

Lemma save_label_resweep :
  let label := fun s => text (gui (env s)) saveButton in
  let e := StartClicked (ones 200) in
  (label saved = "Save Data" \/ label saved = "Data Saved") /\
  label (step e saved) = label saved /\
  (label saved = "Data Saved" -> label (step e saved) = "Data Saved").
Proof.
  apply (save_label (StartClicked (ones 200)) saved).
  - apply reach_event; [|reflexivity].
    apply reach_event; [|reflexivity].
    apply reach_event; [apply reach_initial|reflexivity].
  - reflexivity.
Defined.

(** *** More on [processData] *)

(** X9: what [processData] stores and plots depends on the reply and on
    [N] alone: from two states with the same [N] it fails or returns alike,
    and when it returns the two sequences, the axes and the screen are the
    same in both.  Nothing of an earlier sweep survives a completed one. *)
Theorem processData_forgets (reply : string) (st1 st2 : state) :
  N (vars st1) = N (vars st2) ->
  let r1 := processData reply st1 in
  let r2 := processData reply st2 in
  raised r1 = raised r2 /\
  (raised r1 = None ->
   voltage (vars (final r1)) = voltage (vars (final r2)) /\
   current (vars (final r1)) = current (vars (final r2)) /\
   axes (env (final r1)) = axes (env (final r2)) /\
   canvas (env (final r1)) = canvas (env (final r2))).
Proof.
  intros HN r1 r2. subst r1 r2. rewrite !processData_cases, HN.
  destruct (comprehension _ (range 0 _ 2)) as [x|v];
    [split; [reflexivity|discriminate]|].
  destruct (comprehension _ (range 1 _ 2)) as [x|c];
    [split; [reflexivity|discriminate]|].
  repeat split.
Qed.

Lemma processData_forgets_swept :
  let r1 := processData (ones 200) selected in
  let r2 := processData (ones 200) saved in
  raised r1 = raised r2 /\
  (raised r1 = None ->
   voltage (vars (final r1)) = voltage (vars (final r2)) /\
   current (vars (final r1)) = current (vars (final r2)) /\
   axes (env (final r1)) = axes (env (final r2)) /\
   canvas (env (final r1)) = canvas (env (final r2))).
Proof.
  apply (processData_forgets (ones 200) selected saved). reflexivity.
Defined.

Lemma range_members (n : Z) (j : Z) :
  In j (range 0 (2 * n) 2) \/ In j (range 1 (2 * n) 2) ->
  exists m, j = Z.of_nat m /\ (m < 2 * Z.to_nat n)%nat.
Proof.
  rewrite range_even, range_odd.
  intros [H|H]; apply in_map_iff in H as (k & <- & Hk); apply in_seq in Hk;
    eexists; split; try reflexivity; lia.
Qed.

(** X10: the kind of error tells what was wrong with the reply.  With at
    least [2N] fields [processData] never raises [IndexError]; with every
    field of the reply a numeral it never raises [ValueError]; and the
    empty reply, whose one field is the empty text, raises [ValueError]
    whenever [N] is positive. *)
Theorem processData_error_kind (reply : string) (st : state) :
  let data := split comma reply in
  let n := Z.to_nat (N (vars st)) in
  ((2 * n <= List.length data)%nat ->
   raised (processData reply st) <> Some IndexError) /\
  ((forall t, In t data -> float_of_str t <> None) ->
   raised (processData reply st) <> Some ValueError) /\
  (0 < N (vars st) -> raised (processData "" st) = Some ValueError).
Proof.
  intros data n.
  assert (Hkind : forall e j, (In j (range 0 (2 * N (vars st)) 2) \/
                               In j (range 1 (2 * N (vars st)) 2)) ->
                  field data j = inl e ->
                  ((2 * n <= List.length data)%nat -> e <> IndexError) /\
                  ((forall t, In t data -> float_of_str t <> None) ->
                   e <> ValueError)).
  { intros e j Hj Hf. apply range_members in Hj as (m & -> & Hm). fold n in Hm.
    rewrite field_nat in Hf. unfold py_float in Hf. split.
    - intros Hlen. destruct (nth_error data m) as [t|] eqn:Ht.
      + destruct (float_of_str t); inversion Hf. discriminate.
      + apply nth_error_None in Ht. lia.
    - intros Hall. destruct (nth_error data m) as [t|] eqn:Ht.
      + apply nth_error_In in Ht. specialize (Hall t Ht).
        destruct (float_of_str t); [discriminate|congruence].
      + inversion Hf. discriminate. }
  assert (Hraised : forall e, raised (processData reply st) = Some e ->
                    exists j, (In j (range 0 (2 * N (vars st)) 2) \/
                               In j (range 1 (2 * N (vars st)) 2)) /\
                              field data j = inl e).
  { intros e. rewrite processData_cases. fold data.
    destruct (comprehension _ (range 0 _ 2)) as [x|v] eqn:Ev.
    - cbn [raised]. intros H; inversion H; subst.
      apply comprehension_inl in Ev as (j & Hj & Hf). eauto.
    - destruct (comprehension _ (range 1 _ 2)) as [x|c] eqn:Ec;
        [|discriminate].
      cbn [raised]. intros H; inversion H; subst.
      apply comprehension_inl in Ec as (j & Hj & Hf). eauto. }
  split; [|split].
  - intros Hlen H. destruct (Hraised _ H) as (j & Hj & Hf).
    now destruct (Hkind _ j Hj Hf) as [H1 _]; apply H1.
  - intros Hall H. destruct (Hraised _ H) as (j & Hj & Hf).
    now destruct (Hkind _ j Hj Hf) as [_ H2]; apply H2.
  - intros Hpos. rewrite processData_cases, range_even.
    destruct (Z.to_nat (N (vars st))) as [|k] eqn:Ek; [lia|].
    reflexivity.
Qed.

Lemma processData_error_kind_long :
  raised (processData (ones 201) selected) <> Some IndexError /\
  raised (processData "1" selected) <> Some ValueError /\
  raised (processData "" selected) = Some ValueError.
Proof.
  split; [|split].
  - apply (processData_error_kind (ones 201) selected). vm_compute. lia.
  - apply (processData_error_kind "1" selected).
    intros t [<-|[]]. vm_compute. discriminate.
  - apply (processData_error_kind "" selected). reflexivity.
Defined.

(** *** Fields *)

Lemma split_cons (c d : ascii) (r : string) :
  split c (String d r) =
  if Ascii.eqb d c then EmptyString :: split c r
  else match split c r with
       | f :: fs => String d f :: fs
       | [] => [String d EmptyString]
       end.
Proof. reflexivity. Qed.

Lemma join_cons (c : ascii) (f : string) (fs : list string) :
  fs <> [] -> join c (f :: fs) = (f ++ String c (join c fs))%string.
Proof. destruct fs; [congruence|reflexivity]. Qed.

(** X11: splitting a text at a character loses nothing: there is one field
    more than the text has separators, no field holds the separator, and
    the fields joined by it are the text again. *)
Theorem join_split (c : ascii) (s : string) :
  List.length (split c s) = S (count_char c s) /\
  Forall (fun f => has_char c f = false) (split c s) /\
  join c (split c s) = s.
Proof.
  induction s as [|d s (Hlen & Hno & Hjoin)].
  - repeat split. repeat constructor.
  - rewrite split_cons. cbn [count_char].
    destruct (Ascii.eqb_spec d c) as [->|Hdc].
    + split; [cbn [List.length]; now rewrite Hlen|].
      split; [constructor; [reflexivity|exact Hno]|].
      rewrite join_cons, Hjoin; [reflexivity|].
      destruct (split c s); [discriminate|congruence].
    + destruct (split c s) as [|f fs]; [discriminate|].
      split; [exact Hlen|]. apply Forall_cons_iff in Hno as [Hf Hfs].
      split.
      * constructor; [|assumption]. cbn [has_char].
        rewrite Ascii.eqb_sym. apply Ascii.eqb_neq in Hdc. now rewrite Hdc, Hf.
      * destruct fs as [|f' fs].
        -- cbn [join String.concat] in *. now rewrite Hjoin.
        -- rewrite join_cons in Hjoin |- * by discriminate.
           cbn [append]. now rewrite Hjoin.
Qed.

(** *** Sweep, then stop *)

(** X12: after a sweep that returned, both the start and the stop button
    are enabled; [stop_clicked] pressed then returns, changes no global,
    leaves the start button enabled and disables the stop button. *)
Theorem sweep_then_stop (reply : string) (st : state) :
  reachable st -> enabled (StartClicked reply) st = true ->
  raised (start_clicked reply st) = None ->
  let st1 := step (StartClicked reply) st in
  let st2 := step StopClicked st1 in
  enabled StopClicked st1 = true /\
  (forall again, enabled (StartClicked again) st1 = true) /\
  raised (stop_clicked st1) = None /\
  vars st2 = vars st1 /\
  disabled (gui (env st2)) startButton = false /\
  disabled (gui (env st2)) stopButton = true.
Proof.
  intros Hr Hen Hret st1 st2.
  pose proof (reachable_inv st Hr) as Hinv.
  pose proof (reachable_gate st Hr) as Hgate.
  assert (Hr1 : reachable st1) by (now apply reach_event).
  assert (H1 : enabled StopClicked st1 = true /\
               disabled (gui (env st1)) startButton = false).
  { pose proof (handler_summary _ st Hinv Hgate Hen) as Hh.
    cbn [handler] in Hh. rewrite Hh in Hret.
    subst st1. unfold enabled. cbn [source]. rewrite andb_true_r.
    rewrite (step_summary _ st Hinv Hgate Hen).
    cbn [summary] in *. unfold sweep_outcome in *.
    destruct (comprehension _ (range 0 _ 2));
      [|destruct (comprehension _ (range 1 _ 2))];
      cbn [fst snd pack raised] in *; try discriminate;
      gui_norm; split; reflexivity. }
  destruct H1 as [Hen1 Hstart]. split; [exact Hen1|].
  split. { intros again. unfold enabled. cbn [source]. now rewrite Hstart. }
  pose proof (reachable_inv st1 Hr1) as Hinv1.
  pose proof (reachable_gate st1 Hr1) as Hgate1.
  pose proof (handler_summary _ st1 Hinv1 Hgate1 Hen1) as Hh1.
  cbn [handler summary pack] in Hh1. rewrite Hh1.
  subst st2. rewrite (step_summary _ st1 Hinv1 Hgate1 Hen1). cbn [summary fst snd].
  gui_norm. repeat split.
Qed.

Lemma sweep_then_stop_full :
  let st1 := step (StartClicked (ones 200)) selected in
  let st2 := step StopClicked st1 in
  enabled StopClicked st1 = true /\
  (forall again, enabled (StartClicked again) st1 = true) /\
  raised (stop_clicked st1) = None /\
  vars st2 = vars st1 /\
  disabled (gui (env st2)) startButton = false /\
  disabled (gui (env st2)) stopButton = true.
Proof.
  apply (sweep_then_stop (ones 200) selected).
  - apply reach_event; [apply reach_initial|reflexivity].
  - reflexivity.
  - vm_compute. reflexivity.
Defined.

(** *** The files written *)

Lemma export_lines (g : globals) :
  List.length (voltage g) = 100%nat -> List.length (current g) = 100%nat ->
  List.length
    (lines (unlines (header_lines g ++ data_lines (voltage g) (current g))))
  = 107%nat.
Proof.
  intros Hv Hc. rewrite lines_unlines.
  - rewrite length_app. unfold data_lines.
    rewrite length_map, length_combine, Hv, Hc. reflexivity.
  - apply Forall_app. split; [apply header_no_LF|apply data_no_LF].
Qed.

Lemma files_step (e : event) (st : state) :
  panel_inv st -> gate_inv st -> files_inv st -> enabled e st = true ->
  files_inv (step e st).
Proof.
  intros Hinv Hgate Hfiles Hen.
  rewrite (step_summary e st Hinv Hgate Hen).
  destruct Hinv as (HN & Hv & Hc & _). unfold files_inv in *.
  destruct e as [name|port|reply| |chosen|txt|txt|txt|txt]; cbn [summary];
    try (unfold edit_outcome; destruct (float_of_str txt));
    try (unfold sweep_outcome;
         destruct (comprehension _ (range 0 _ 2));
         [|destruct (comprehension _ (range 1 _ 2))]);
    try (destruct chosen as [|a chosen]);
    cbn [fst snd]; try (world_norm; exact Hfiles).
  rewrite files_after_save. constructor; [|exact Hfiles].
  cbn [fst snd]. split; [discriminate|now apply export_lines].
Qed.

(** X13: no partial file is ever left behind: in every state the panel can
    reach, each file written so far has a non-empty name and exactly 107
    lines, the seven header lines and one line for each of the 100
    points. *)
Theorem files_always_whole (st : state) :
  reachable st ->
  Forall (fun nc => fst nc <> "" /\ List.length (lines (snd nc)) = 107%nat)
         (files (env st)).
Proof.
  induction 1 as [|e st Hr IH Hen]; [constructor|].
  apply files_step; auto using reachable_inv, reachable_gate.
Qed.

Lemma files_always_whole_saved :
  Forall (fun nc => fst nc <> "" /\ List.length (lines (snd nc)) = 107%nat)
         (files (env saved)).
Proof.
  apply (files_always_whole saved).
  apply reach_event; [|reflexivity].
  apply reach_event; [|reflexivity].
  apply reach_event; [apply reach_initial|reflexivity].
Defined.

(** *** Blank entries *)

Lemma space_not_underscore (c : ascii) :
  is_space c = true -> is_underscore c = false.
Proof.
  intros H. unfold is_underscore.
  destruct (Ascii.eqb_spec c "_") as [->|]; [discriminate|reflexivity].
Qed.

Lemma space_not_digit (c : ascii) : is_space c = true -> is_digit c = false.
Proof.
  unfold is_space, is_digit. intros H.
  destruct (N.leb_spec 48 (N_of_ascii c)); [|reflexivity].
  destruct (N.leb_spec (N_of_ascii c) 57); [|reflexivity].
  destruct (N.leb_spec 9 (N_of_ascii c)); cbn [andb orb] in H;
    [destruct (N.leb_spec (N_of_ascii c) 13); cbn [orb] in H; [lia|]|];
    apply N.eqb_eq in H; lia.
Qed.

Lemma remove_underscores_blank (prev : ascii) (s : string) :
  is_underscore prev = false -> all_chars is_space s = true ->
  remove_underscores prev s = Some s.
Proof.
  revert prev. induction s as [|c s IH]; intros prev Hp Hs.
  - cbn [remove_underscores]. now rewrite Hp.
  - cbn [all_chars] in Hs. apply andb_true_iff in Hs as [Hc Hs].
    cbn [remove_underscores].
    rewrite (space_not_underscore c Hc), Hp. cbn [andb].
    rewrite (IH c (space_not_underscore c Hc) Hs). reflexivity.
Qed.

Lemma lstrip_blank (s : string) :
  all_chars is_space s = true -> lstrip s = "".
Proof.
  induction s as [|c s IH]; [reflexivity|].
  cbn [all_chars lstrip]. intros H. apply andb_true_iff in H as [Hc Hs].
  rewrite Hc. auto.
Qed.

Lemma float_of_str_blank (s : string) :
  all_chars is_space s = true -> float_of_str s = None.
Proof.
  intros H. unfold float_of_str.
  rewrite (remove_underscores_blank NUL s eq_refl H), (lstrip_blank s H).
  reflexivity.
Qed.

(** X14: an entry that is empty or holds white space only is no number:
    each of the four entry handlers then raises [ValueError] at once and
    leaves the whole state as it was, the global it would set included;
    nothing is sent to the instrument. *)
Theorem blank_entry (txt : string) (st : state) :
  all_chars is_space txt = true ->
  areaSet txt st = Raised ValueError st /\
  fluxSet txt st = Raised ValueError st /\
  minVset txt st = Raised ValueError st /\
  maxVset txt st = Raised ValueError st.
Proof.
  intros H. unfold areaSet, fluxSet, minVset, maxVset, bind, lift, py_float.
  rewrite (float_of_str_blank txt H). repeat split.
Qed.

Lemma blank_entry_cleared :
  areaSet "" swept = Raised ValueError swept /\
  fluxSet "" swept = Raised ValueError swept /\
  minVset "" swept = Raised ValueError swept /\
  maxVset "" swept = Raised ValueError swept.
Proof. apply (blank_entry "" swept). reflexivity. Defined.

(** *** The stop button and a read in flight *)

(** C10: wherever the stop button can be pressed, [stop_clicked] returns
    after three effects: it disables the stop button, enables the start
    button and writes [output off] to the instrument, its only command.
    Every global is as before: the two result sequences, the sweep
    parameters and the derived metrics; so are the plot and the files.
    The thread runs it from the event loop, in one step.  It does not
    interrupt a read in flight: a sweep started where the start button can
    be pressed brings the thread, after three statements and the command
    [read?], inside the query, with the stop button enabled; from there
    the only step is the arrival of the reply, so no event is taken, and
    after the reply the thread runs the rest of [start_clicked] to its end
    before it is back in the event loop. *)
Theorem stop_clicked_frame (st : state) :
  reachable st -> enabled StopClicked st = true ->
  let r := stop_clicked st in
  (raised r = None /\
   effects_of stop_clicked st =
     [ SetDisabled stopButton true; SetDisabled startButton false;
       VisaWrite "output off" ] /\
   sent (effects_of stop_clicked st) = ["output off"] /\
   vars (final r) = vars st /\
   axes (env (final r)) = axes (env st) /\
   canvas (env (final r)) = canvas (env st) /\
   files (env (final r)) = files (env st)) /\
  run (st, Idle) [Take StopClicked; Tick; Tick] (final r, Idle) /\
  forall st0 reply0,
    reachable st0 -> enabled (StartClicked reply0) st0 = true ->
    run (st0, Idle) [Take (StartClicked reply0); Tick; Tick; Tick; Send "read?"]
        (reading_from st0) /\
    disabled (gui (env (fst (reading_from st0)))) stopButton = false /\
    (forall l c, loop (reading_from st0) l c ->
       exists reply,
         l = Receive reply /\
         c = (final (perform (VisaQuery "read?" reply) (fst (reading_from st0))),
              Running (after_read reply))) /\
    (forall e c, ~ loop (reading_from st0) (Take e) c) /\
    forall reply, exists ticks,
      Forall (eq Tick) ticks /\
      run (reading_from st0) (Receive reply :: ticks)
          (step (StartClicked reply) st0, Idle).
Proof.
  intros Hr Hen r.
  destruct (reachable_session st Hr) as [sm Hsm].
  { right. exact (enabled_source StopClicked st Hen). }
  assert (E : effects_of stop_clicked st =
              [ SetDisabled stopButton true; SetDisabled startButton false;
                VisaWrite "output off" ]).
  { apply (effects_after stop_clicked st st); [|reflexivity].
    now rewrite stop_clicked_cases, Hsm. }
  split; [|split].
  - subst r. rewrite E, stop_clicked_cases, Hsm. repeat split.
  - eapply run_cons; [apply loop_take; exact Hen|].
    eapply run_cons.
    { cbn [prog_of handler]. apply loop_do with (st' := final r).
      subst r. rewrite stop_clicked_cases, Hsm. reflexivity. }
    eapply run_cons; [apply loop_halt|apply run_nil].
  - intros st0 reply0 Hr0 Hen0.
    destruct (reachable_session st0 Hr0) as [sm0 Hsm0].
    { left. exact (enabled_source (StartClicked reply0) st0 Hen0). }
    assert (Hw : forall cmd es,
               SM_write cmd (after_effects es st0) =
               Done tt (final (perform (VisaWrite cmd) (after_effects es st0)))).
    { intros cmd es. unfold SM_write, bind, read.
      change (vars (after_effects es st0)) with (vars st0).
      rewrite Hsm0. reflexivity. }
    split; [|split; [|split; [|split]]].
    + eapply run_cons; [apply loop_take; exact Hen0|].
      cbn [prog_of]. unfold start_prog.
      eapply run_cons; [apply loop_do; reflexivity|].
      eapply run_cons; [apply loop_do; reflexivity|].
      eapply run_cons.
      { apply loop_do.
        apply (Hw "output on" [SetDisabled startButton true;
                               SetDisabled stopButton false]). }
      eapply run_cons; [apply loop_send with (sm := sm0); exact Hsm0|].
      apply run_nil.
    + reflexivity.
    + intros l c H. inversion H; subst. eexists. split; reflexivity.
    + intros e c H. inversion H.
    + intros reply.
      set (s5 := after_effects (opening reply) st0).
      assert (Hs : start_clicked reply st0 =
                   (processData reply ;; perform (SetDisabled startButton false)) s5).
      { unfold start_clicked, SM_write, SM_query, bind, read, perform, ret.
        cbn [vars env]. rewrite Hsm0. cbn [vars env]. rewrite Hsm0.
        cbn [vars env]. rewrite Hsm0. reflexivity. }
      assert (Hoff : loop (final (perform (VisaQuery "read?" reply)
                                    (fst (reading_from st0))),
                           Running (after_read reply))
                          Tick
                          (s5, Running (Do (processData reply)
                                  (Do (perform (SetDisabled startButton false)) Halt)))).
      { apply loop_do.
        apply (Hw "output off" [SetDisabled startButton true;
                                SetDisabled stopButton false;
                                VisaWrite "output on"; VisaQuery "read?" reply]). }
      destruct (processData reply s5) as [[] s6|x s6] eqn:Hp.
      * assert (Hstep : step (StartClicked reply) st0 =
                        final (perform (SetDisabled startButton false) s6)).
        { unfold step. cbn [handler]. rewrite Hs. unfold bind at 1.
          rewrite Hp. reflexivity. }
        rewrite Hstep. exists [Tick; Tick; Tick; Tick]. split.
        { repeat constructor. }
        eapply run_cons; [apply loop_receive|].
        eapply run_cons; [exact Hoff|].
        eapply run_cons; [apply loop_do; exact Hp|].
        eapply run_cons; [apply loop_do; reflexivity|].
        eapply run_cons; [apply loop_halt|apply run_nil].
      * assert (Hstep : step (StartClicked reply) st0 = s6).
        { unfold step. cbn [handler]. rewrite Hs. unfold bind at 1.
          rewrite Hp. reflexivity. }
        rewrite Hstep. exists [Tick; Tick]. split.
        { repeat constructor. }
        eapply run_cons; [apply loop_receive|].
        eapply run_cons; [exact Hoff|].
        eapply run_cons; [eapply loop_raise; exact Hp|apply run_nil].
Qed.

Lemma stop_clicked_frame_swept :
  (raised (stop_clicked swept) = None /\
   sent (effects_of stop_clicked swept) = ["output off"] /\
   vars (final (stop_clicked swept)) = vars swept) /\
  run (swept, Idle) [Take StopClicked; Tick; Tick]
      (final (stop_clicked swept), Idle) /\
  disabled (gui (env (fst (reading_from selected)))) stopButton = false /\
  (forall e c, ~ loop (reading_from selected) (Take e) c).
Proof.
  destruct (stop_clicked_frame swept) as ((H1 & _ & H3 & H4 & _) & Hrun & Hin).
  - apply reach_event; [|reflexivity].
    apply reach_event; [apply reach_initial|reflexivity].
  - reflexivity.
  - split; [repeat split; assumption|]. split; [exact Hrun|].
    destruct (Hin selected (ones 200)) as (_ & Hb & _ & H & _).
    + apply reach_event; [apply reach_initial|reflexivity].
    + reflexivity.
    + split; [exact Hb|exact H].
Defined.

End More.
